(** * Deterministic hash-based A/B split: [01_hash_split/hash_split.py]

    A shallow embedding of [ABSplitter._hash_to_float] and
    [ABSplitter.get_group], and the properties of the assignment engine.

    - Python [str] is modelled by [string], read as the UTF-8 bytes of the
      text, so that [str.encode()] is the list of its bytes.
    - Python [float] is IEEE 754 binary64, modelled by [spec_float] with
      the operations of [SpecFloat] at precision 53 and [emax] 1024.
    - [hashlib.sha256] is modelled by [Sha256.digest], FIPS 180-4.
    - Exceptions and the calls to the hash function are threaded through
      the monad [M]. *)

From Stdlib Require Import ZArith QArith Qabs List String Ascii Bool Lia.
From Stdlib Require Import Strings.Byte DecimalString DecimalZ.
From Stdlib Require Import Floats.SpecFloat.
Import ListNotations.

Local Open Scope list_scope.

(** ** SHA-256 (FIPS 180-4), the function behind [hashlib.sha256] *)

Module Sha256.
Local Open Scope Z_scope.

Definition word (x : Z) : Z := x mod 2 ^ 32.
Definition add32 (x y : Z) : Z := word (x + y).
Definition rotr (n x : Z) : Z :=
  Z.lor (Z.shiftr x n) (word (Z.shiftl x (32 - n))).
Definition Ch (x y z : Z) : Z :=
  Z.lxor (Z.land x y) (Z.land (word (Z.lnot x)) z).
Definition Maj (x y z : Z) : Z :=
  Z.lxor (Z.lxor (Z.land x y) (Z.land x z)) (Z.land y z).
Definition Sigma0 (x : Z) : Z :=
  Z.lxor (Z.lxor (rotr 2 x) (rotr 13 x)) (rotr 22 x).
Definition Sigma1 (x : Z) : Z :=
  Z.lxor (Z.lxor (rotr 6 x) (rotr 11 x)) (rotr 25 x).
Definition sigma0 (x : Z) : Z :=
  Z.lxor (Z.lxor (rotr 7 x) (rotr 18 x)) (Z.shiftr x 3).
Definition sigma1 (x : Z) : Z :=
  Z.lxor (Z.lxor (rotr 17 x) (rotr 19 x)) (Z.shiftr x 10).

(** The largest [r] with [r ^ 3 <= n], for [n < 2 ^ 108], found bit by
    bit from the top. *)
Definition cube_root (n : Z) : Z :=
  fold_left (fun r i => let r' := r + 2 ^ Z.of_nat i in
                        if r' * r' * r' <=? n then r' else r)
            (rev (seq 0 36)) 0.

Definition is_prime (n : nat) : bool :=
  forallb (fun d => negb (Nat.eqb (Nat.modulo n d) 0)) (seq 2 (n - 2)).

(** The first sixty-four primes, 2 to 311. *)
Definition primes : list Z := map Z.of_nat (filter is_prime (seq 2 310)).

(** The round constants: the first thirty-two bits of the fractional
    parts of the cube roots of the first sixty-four primes. *)
Definition K : list Z := map (fun p => word (cube_root (p * 2 ^ 96))) primes.

(** The initial hash value: the first thirty-two bits of the fractional
    parts of the square roots of the first eight primes. *)
Definition H0 : list Z := map (fun p => word (Z.sqrt (p * 2 ^ 64))) (firstn 8 primes).

Definition byte_val (b : byte) : Z := Z.of_N (Byte.to_N b).

Definition byte_of_Z (z : Z) : byte :=
  match Byte.of_N (Z.to_N (z mod 256)) with Some b => b | None => x00 end.

(** The [n] low bytes of [x], most significant first. *)
Fixpoint be_bytes (n : nat) (x : Z) : list byte :=
  match n with
  | O => []
  | S n' => byte_of_Z (Z.shiftr x (8 * Z.of_nat n')) :: be_bytes n' x
  end.

(** The number a byte string denotes, most significant byte first:
    [int.from_bytes(bs, 'big')]. *)
Definition be_value (bs : list byte) : Z :=
  fold_left (fun acc b => acc * 256 + byte_val b) bs 0.

Definition pad (msg : list byte) : list byte :=
  let len := Z.of_nat (List.length msg) in
  msg ++ x80 :: repeat x00 (Z.to_nat ((55 - len) mod 64))
      ++ be_bytes 8 (8 * len).

(** The [i]-th run of [n] elements of [l]. *)
Definition chunk {A} (n i : nat) (l : list A) : list A :=
  firstn n (skipn (i * n) l).

Definition block_words (blk : list byte) : list Z :=
  map (fun j => be_value (chunk 4 j blk)) (seq 0 16).

Definition schedule (m : list Z) : list Z :=
  fold_left (fun W t =>
    W ++ [add32 (add32 (add32 (sigma1 (nth (t - 2) W 0)) (nth (t - 7) W 0))
                       (sigma0 (nth (t - 15) W 0)))
                (nth (t - 16) W 0)])
    (seq 16 48) m.

Record regs := { ra : Z; rb : Z; rc : Z; rd : Z; re : Z; rf : Z; rg : Z; rh : Z }.

Definition round (s : regs) (kw : Z * Z) : regs :=
  let '(k, w) := kw in
  let T1 := add32 (add32 (add32 (add32 (rh s) (Sigma1 (re s)))
                                (Ch (re s) (rf s) (rg s))) k) w in
  let T2 := add32 (Sigma0 (ra s)) (Maj (ra s) (rb s) (rc s)) in
  {| ra := add32 T1 T2; rb := ra s; rc := rb s; rd := rc s;
     re := add32 (rd s) T1; rf := re s; rg := rf s; rh := rg s |}.

Definition regs_of (h : list Z) : regs :=
  {| ra := nth 0 h 0; rb := nth 1 h 0; rc := nth 2 h 0; rd := nth 3 h 0;
     re := nth 4 h 0; rf := nth 5 h 0; rg := nth 6 h 0; rh := nth 7 h 0 |}.

Definition list_of (s : regs) : list Z :=
  [ra s; rb s; rc s; rd s; re s; rf s; rg s; rh s].

Definition compress (h : list Z) (blk : list byte) : list Z :=
  let W := schedule (block_words blk) in
  let s := fold_left round (combine K W) (regs_of h) in
  map (fun p => add32 (fst p) (snd p)) (combine h (list_of s)).

Definition digest (msg : list byte) : list byte :=
  let p := pad msg in
  let h := fold_left (fun h i => compress h (chunk 64 i p))
                     (seq 0 (List.length p / 64)) H0 in
  flat_map (be_bytes 4) h.

End Sha256.

(** ** Python floats: IEEE 754 binary64 *)

Module Float.
Local Open Scope Z_scope.

Definition prec : Z := 53.
Definition emax : Z := 1024.
Definition float : Type := spec_float.

Definition add : float -> float -> float := SFadd prec emax.
Definition sub : float -> float -> float := SFsub prec emax.
Definition mul : float -> float -> float := SFmul prec emax.
Definition abs : float -> float := SFabs.
Definition ltb : float -> float -> bool := SFltb.
Definition leb : float -> float -> bool := SFleb.
Definition eqb : float -> float -> bool := SFeqb.

Definition isfinite (x : float) : bool :=
  match x with
  | S754_zero _ | S754_finite _ _ _ => true
  | _ => false
  end.

Definition is_nan (x : float) : bool :=
  match x with S754_nan => true | _ => false end.

(** [a / b] on Python integers, for [b] not zero: the exact quotient
    rounded once to binary64, to nearest and ties to even. *)
Definition int_truediv (a b : Z) : float :=
  let s := xorb (a <? 0) (b <? 0) in
  match a with
  | Z0 => S754_zero s
  | _ =>
      let '(q, e, l) := SFdiv_core_binary prec emax (Z.abs a) 0 (Z.abs b) 0 in
      binary_round_aux prec emax s q e l
  end.

Definition zero : float := S754_zero false.
Definition one : float := S754_finite false 4503599627370496 (-52).

(** The decimal literal [a / b] of the source text, for small [a] and [b]:
    the double nearest to it. *)
Definition lit (a b : Z) : float := int_truediv a b.

(** The rational a float denotes; [None] for infinities and NaN. *)
Definition to_Q (x : float) : option Q :=
  match x with
  | S754_zero _ => Some (0 # 1)%Q
  | S754_finite s m e =>
      let v := match e with
               | Zneg p => Qmake (Zpos m) (2 ^ p)
               | _ => inject_Z (Zpos m * 2 ^ e)
               end in
      Some (if s then Qopp v else v)
  | _ => None
  end.

(** [n] rounded to the nearest multiple of [2 ^ k], ties to the even
    multiple, as a count of multiples. *)
Definition rne (n k : Z) : Z :=
  let q := n / 2 ^ k in
  match 2 * (n mod 2 ^ k) ?= 2 ^ k with
  | Lt => q
  | Eq => if Z.even q then q else q + 1
  | Gt => q + 1
  end.

(** [n] rounded to 53 significant bits. *)
Definition round53 (n : Z) : Z :=
  let k := Z.max 0 (Z.log2 n - 52) in rne n k * 2 ^ k.

End Float.

(** ** The numbers the bucket loop works on

    The loop of [get_group] only adds weights to an accumulator that
    starts at zero and compares the bucket with it.  [Number] is that
    interface; Python runs it on floats, and the exact-arithmetic reading
    of the loop runs it on rationals. *)

Class Number (F : Type) : Type := {
  num_zero : F;
  num_add : F -> F -> F;
  num_ltb : F -> F -> bool
}.

#[global] Instance float_Number : Number Float.float := {|
  num_zero := Float.zero;
  num_add := Float.add;
  num_ltb := Float.ltb
|}.

Definition Qltb (x y : Q) : bool := negb (Qle_bool y x).

#[global] Instance Q_Number : Number Q := {|
  num_zero := (0 # 1)%Q;
  num_add := Qplus;
  num_ltb := Qltb
|}.

(** ** Exceptions and the hashing trace *)

Inductive exn : Type :=
| ValueError          (* "Weights must sum to 1, got ..." *)
| ZeroDivisionError
| IndexError
| OverflowError.

(** The messages handed to [hashlib.sha256] so far, oldest first. *)
Definition trace : Type := list (list byte).

Definition M (A : Type) : Type := trace -> (exn + A) * trace.

Definition ret {A} (x : A) : M A := fun t => (inr x, t).
Definition raise {A} (e : exn) : M A := fun t => (inl e, t).
Definition bind {A B} (c : M A) (k : A -> M B) : M B :=
  fun t =>
    match c t with
    | (inl e, t') => (inl e, t')
    | (inr x, t') => k x t'
    end.
Definition lift {A} (r : exn + A) : M A := fun t => (r, t).

Declare Scope py_scope.
Delimit Scope py_scope with py.
Notation "x <- c ;; k" := (bind c (fun x => k))
  (at level 61, c at next level, right associativity) : py_scope.
Notation "c ;;; k" := (bind c (fun _ => k))
  (at level 61, right associativity) : py_scope.

(** The value an assignment call returns, whatever trace it starts from. *)
Definition result {A} (c : M A) (t : trace) : exn + A := fst (c t).

(** ** Python values used as identifiers *)

Inductive value : Type :=
| PyStr (s : string)
| PyInt (n : Z)
| PyBool (b : bool)
| PyNone.

(** [f"{value}"]: [format(value, "")], which is [str(value)]. *)
Definition format_value (v : value) : string :=
  match v with
  | PyStr s => s
  | PyInt n => NilZero.string_of_int (Z.to_int n)
  | PyBool true => "True"
  | PyBool false => "False"
  | PyNone => "None"
  end.

(** [str.encode()], UTF-8. *)
Definition encode (s : string) : list byte := list_byte_of_string s.

(** [hashlib.sha256(msg).digest()] *)
Definition hashlib_sha256_digest (msg : list byte) : M (list byte) :=
  fun t => (inr (Sha256.digest msg), t ++ [msg]).

(** [a / b] on integers. *)
Definition py_truediv (a b : Z) : M Float.float :=
  if (b =? 0)%Z then raise ZeroDivisionError
  else match Float.int_truediv a b with
       | S754_infinity _ => raise OverflowError
       | x => ret x
       end.

(** [sum(weights)]: the items added left to right, starting from [0].
    (CPython 3.12 and later also carry a compensation term for the
    rounding errors of a float sum; the lists evaluated below sum without
    rounding error or far from [1.0].) *)
Definition py_sum (weights : list Float.float) : Float.float :=
  fold_left Float.add weights Float.zero.

(** [np.isclose(a, b)] with numpy's default [rtol = 1e-05] and
    [atol = 1e-08]: [|a - b| <= atol + rtol * |b|] for a finite [b],
    or [a == b]. *)
Definition rtol : Float.float := Float.lit 1 100000.
Definition atol : Float.float := Float.lit 1 100000000.

Definition np_isclose (a b : Float.float) : bool :=
  (Float.leb (Float.abs (Float.sub a b))
             (Float.add atol (Float.mul rtol (Float.abs b)))
   && Float.isfinite b)
  || Float.eqb a b.

(** ** [class ABSplitter] *)

Record ABSplitter : Type := { salt : string }.

Local Open Scope py_scope.

(** [f"{self.salt}_{value}"] *)
Definition combined (self : ABSplitter) (v : value) : string :=
  (salt self ++ "_" ++ format_value v)%string.

Definition _hash_to_float (self : ABSplitter) (v : value) : M Float.float :=
  hash_bytes <- hashlib_sha256_digest (encode (combined self v)) ;;
  py_truediv (Sha256.be_value (firstn 8 hash_bytes)) (2 ^ 64).

(** The [for group, weight in zip(groups, weights)] loop: [Some group]
    when the loop returns, [None] when it runs to its end. *)
Fixpoint scan {F} `{Number F} (bucket cumulative : F)
    (pairs : list (string * F)) : option string :=
  match pairs with
  | [] => None
  | (group, weight) :: rest =>
      let cumulative := num_add cumulative weight in
      if num_ltb bucket cumulative then Some group
      else scan bucket cumulative rest
  end.

(** [groups[-1]] *)
Definition py_last (groups : list string) : exn + string :=
  match groups with
  | [] => inl IndexError
  | g :: rest => inr (last rest g)
  end.

(** Lines 63 to 68 of [get_group]: the bucket's group. *)
Definition pick {F} `{Number F} (bucket : F) (groups : list string)
    (weights : list F) : exn + string :=
  match scan bucket num_zero (combine groups weights) with
  | Some group => inr group
  | None => py_last groups
  end.

Definition get_group (self : ABSplitter) (user_id : value)
    (groups : option (list string)) (weights : option (list Float.float))
    : M string :=
  let groups :=
    match groups with
    | None => ["control"; "test"]%string
    | Some g => g
    end in
  weights <-
    match weights with
    | None =>
        w <- py_truediv 1 (Z.of_nat (List.length groups)) ;;
        ret (repeat w (List.length groups))
    | Some w => ret w
    end ;;
  if negb (np_isclose (py_sum weights) Float.one) then raise ValueError
  else
    bucket <- _hash_to_float self user_id ;;
    lift (pick bucket groups weights).

(** ** Notions used to state the properties *)

(** The integer [int.from_bytes(hash_bytes[:8], 'big')] that
    [_hash_to_float] divides by [2 ** 64]. *)
Definition digest_prefix (self : ABSplitter) (v : value) : Z :=
  Sha256.be_value (firstn 8 (Sha256.digest (encode (combined self v)))).

(** The bucket of an identifier: the float [_hash_to_float] returns. *)
Definition bucket_of (self : ABSplitter) (user_id : value) : Float.float :=
  Float.int_truediv (digest_prefix self user_id) (2 ^ 64).

(** [groups] after the [if groups is None] default. *)
Definition effective_groups (groups : option (list string)) : list string :=
  match groups with
  | None => ["control"; "test"]%string
  | Some g => g
  end.

(** The value of [cumulative] after [j] turns of the loop started at [c];
    [bound ws j] is the boundary [b_j] of the weights [ws], with
    [b_0 = 0]. *)
Definition cum {F} `{Number F} (c : F) (ws : list F) (j : nat) : F :=
  fold_left num_add (firstn j ws) c.

Definition bound {F} `{Number F} (ws : list F) (j : nat) : F :=
  cum num_zero ws j.

(** [0 <= x] on floats; it excludes NaN. *)
Definition nonneg (x : Float.float) : Prop := Float.leb Float.zero x = true.

(** The right-hand side of numpy's closeness test against [1.0]. *)
Definition tolerance : Float.float :=
  Float.add atol (Float.mul rtol (Float.abs Float.one)).

(** The sum is further from [1.0] than the tolerance. *)
Definition exceeds_tolerance (s : Float.float) : Prop :=
  Float.ltb tolerance (Float.abs (Float.sub s Float.one)) = true.

Definition has_negative (ws : list Float.float) : Prop :=
  exists w, In w ws /\ Float.ltb w Float.zero = true.

Fixpoint has_underscore (s : string) : bool :=
  match s with
  | EmptyString => false
  | String c rest => Ascii.eqb c "_" || has_underscore rest
  end.

(** The literal [0.5]. *)
Definition half : Float.float := Float.lit 1 2.

(** A computation whose returned value does not depend on the trace it
    starts from. *)
Definition stateless {A} (c : M A) : Prop :=
  forall t, result c t = result c [].

(** Whether a rounding location records a lost nonzero part. *)
Definition inexact (l : location) : bool :=
  match l with loc_Exact => false | _ => true end.

(** The 53-bit mantissa that a 54-bit [q] with a sticky bit rounds to. *)
Definition round_half (q : Z) (sticky : bool) : Z :=
  round_nearest_even (q / 2)
    (loc_of_shr_record
       {| shr_m := (q / 2)%Z; shr_r := Z.odd q; shr_s := sticky |}).

(** ** The rest of the class and [quick_split]

    A pandas frame is modelled by its columns in order, each a label and a
    list of cells; labels are taken to be distinct.  [df[col]] reads a
    column and raises [KeyError] when the label is absent, [df[col] = s]
    replaces the column in place or appends it as the last one, and
    [Series.apply(func)] calls [func] on the cells from first to last and
    stops at the first exception (it makes no call on an empty column). *)

(** [ABSplitter(salt)], with the default [salt=""]. *)
Definition __init__ (salt : option string) : ABSplitter :=
  {| salt := match salt with None => ""%string | Some s => s end |}.

Definition Series : Type := list value.
Definition DataFrame : Type := list (string * Series).

(** [df[col]]: the column, or [None] where pandas raises [KeyError]. *)
Fixpoint df_getitem (df : DataFrame) (col : string) : option Series :=
  match df with
  | [] => None
  | (c, s) :: rest => if String.eqb c col then Some s else df_getitem rest col
  end.

(** [df[col] = s] *)
Fixpoint df_setitem (df : DataFrame) (col : string) (s : Series) : DataFrame :=
  match df with
  | [] => [(col, s)]
  | (c, x) :: rest =>
      if String.eqb c col then (c, s) :: rest
      else (c, x) :: df_setitem rest col s
  end.

(** [series.apply(func)] *)
Fixpoint series_apply {A} (func : value -> M A) (s : Series) : M (list A) :=
  match s with
  | [] => ret []
  | x :: rest =>
      y <- func x ;;
      ys <- series_apply func rest ;;
      ret (y :: ys)
  end.

(** What a call on a frame can raise: [KeyError] from the frame, or an
    exception of [get_group]. *)
Inductive pd_exn : Type :=
| KeyError (key : string)
| Raised (e : exn).

Definition assign_groups (self : ABSplitter) (df : DataFrame)
    (user_col : string) (groups : option (list string))
    (weights : option (list Float.float))
    : trace -> (pd_exn + DataFrame) * trace :=
  fun t =>
    match df_getitem df user_col with
    | None => (inl (KeyError user_col), t)
    | Some ids =>
        match series_apply (fun uid => get_group self uid groups weights) ids t with
        | (inl e, t') => (inl (Raised e), t')
        | (inr gs, t') => (inr (df_setitem df "group" (map PyStr gs)), t')
        end
    end.

(** [test_pct], with the default [0.5]. *)
Definition quick_split (df : DataFrame) (user_col : string) (salt : string)
    (test_pct : option Float.float)
    : trace -> (pd_exn + DataFrame) * trace :=
  let test_pct := match test_pct with None => half | Some p => p end in
  let splitter := __init__ (Some salt) in
  assign_groups splitter df user_col
    (Some ["control"; "test"]%string)
    (Some [Float.sub Float.one test_pct; test_pct]).

(** The messages [get_group] hashes for the cells of a column, in order. *)
Definition hashed (self : ABSplitter) (ids : Series) : trace :=
  map (fun uid => encode (combined self uid)) ids.

(** The label of the frame's columns, first to last. *)
Definition labels (df : DataFrame) : list string := map fst df.

(** ** Integers of any size as identifiers

    [PyInt n] stands for an integer that [str] renders.  CPython refuses
    to render an integer of more than 4300 decimal digits
    ([sys.get_int_max_str_digits()]) and raises [ValueError]; in
    [get_group] this happens on line 35, inside [_hash_to_float], after
    the weights were checked and before anything is hashed. *)

Definition int_max_str_digits : Z := 4300.

(** [str(n)] on an integer *)
Definition py_str_int (n : Z) : exn + string :=
  if (Z.abs n <? 10 ^ int_max_str_digits)%Z
  then inr (NilZero.string_of_int (Z.to_int n))
  else inl ValueError.

(** [_hash_to_float(n)] on an integer of any size *)
Definition _hash_to_float_int (self : ABSplitter) (n : Z) : M Float.float :=
  match py_str_int n with
  | inl e => raise e
  | inr _ => _hash_to_float self (PyInt n)
  end.

(** [get_group(n, groups, weights)] on an integer of any size *)
Definition get_group_int (self : ABSplitter) (n : Z)
    (groups : option (list string)) (weights : option (list Float.float))
    : M string :=
  let groups :=
    match groups with
    | None => ["control"; "test"]%string
    | Some g => g
    end in
  weights <-
    match weights with
    | None =>
        w <- py_truediv 1 (Z.of_nat (List.length groups)) ;;
        ret (repeat w (List.length groups))
    | Some w => ret w
    end ;;
  if negb (np_isclose (py_sum weights) Float.one) then raise ValueError
  else
    bucket <- _hash_to_float_int self n ;;
    lift (pick bucket groups weights).

(** ** A specification whose boundaries stop short of one

    Ten groups with the default weights [[1 / 10] * 10]: the weights pass
    the validation, and their last cumulative boundary is the float just
    below [1.0], which is [below_one]. *)

Definition ten_groups : list string :=
  ["a"; "b"; "c"; "d"; "e"; "f"; "g"; "h"; "i"; "j"]%string.

Definition tenths : list Float.float := repeat (Float.lit 1 10) 10.

Definition below_one : Float.float := S754_finite false 9007199254740991 (-53).

(** ** The hash function on the standard test vectors *)

Example sha256_abc :
  map Sha256.byte_val (Sha256.digest (list_byte_of_string "abc")) =
  [186; 120; 22; 191; 143; 1; 207; 234; 65; 65; 64; 222; 93; 174; 34; 35;
   176; 3; 97; 163; 150; 23; 122; 156; 180; 16; 255; 97; 242; 0; 21; 173]%Z.
Proof. vm_compute. reflexivity. Qed.

Example sha256_empty :
  map Sha256.byte_val (Sha256.digest []) =
  [227; 176; 196; 66; 152; 252; 28; 20; 154; 251; 244; 200; 153; 111; 185;
   36; 39; 174; 65; 228; 100; 155; 147; 76; 164; 149; 153; 27; 120; 82; 184;
   85]%Z.
Proof. vm_compute. reflexivity. Qed.

Example sha256_constants :
  firstn 2 Sha256.K = [0x428a2f98; 0x71374491]%Z /\
  firstn 2 Sha256.H0 = [0x6a09e667; 0xbb67ae85]%Z /\
  List.length Sha256.K = 64%nat.
Proof. vm_compute. repeat split. Qed.

(** * Facts about binary64 arithmetic *)

Section Binary64Facts.
Local Open Scope Z_scope.

(** ** Digits and shifts *)

Lemma digits2_pos_size (p : positive) : digits2_pos p = Pos.size p.
Proof. induction p; simpl; congruence. Qed.

Lemma Zdigits2_log2 (n : Z) : 0 < n -> Zdigits2 n = Z.log2 n + 1.
Proof.
  destruct n as [|p|p]; try lia. intros _. simpl.
  rewrite digits2_pos_size. destruct p; simpl; lia.
Qed.

Lemma Zdigits2_range (n d : Z) : 0 < d -> 2 ^ (d - 1) <= n < 2 ^ d -> Zdigits2 n = d.
Proof.
  intros Hd Hn. assert (0 < n) by (assert (0 < 2 ^ (d - 1)) by (apply Z.pow_pos_nonneg; lia); lia).
  rewrite Zdigits2_log2 by assumption.
  rewrite (Z.log2_unique n (d - 1)); try lia.
  replace (Z.succ (d - 1)) with d by lia. exact Hn.
Qed.

Lemma div_eucl_div_mod (a b : Z) : Z.div_eucl a b = (a / b, a mod b).
Proof. unfold Z.div, Z.modulo. destruct (Z.div_eucl a b). reflexivity. Qed.

(* one right shift of a record whose mantissa is at least 2 *)

Lemma log2_digits_bounds n : 0 < n -> 2 ^ (Z.log2 n) <= n < 2 ^ (Z.log2 n + 1).
Proof. intros H. pose proof (Z.log2_spec n H). unfold Z.succ in *. lia. Qed.

Lemma log2_lt_64 n : 0 < n < 2 ^ 64 -> 0 <= Z.log2 n < 64.
Proof.
  intros H. split; [apply Z.log2_nonneg|].
  apply Z.log2_lt_pow2; lia.
Qed.

Lemma fexp_normal (e : Z) : -1021 <= e -> fexp Float.prec Float.emax e = e - 53.
Proof. unfold fexp, emin, Float.prec, Float.emax. lia. Qed.


(** One right shift of a rounding record. *)

Lemma shr_1_spec (m : Z) (r s : bool) :
  0 <= m ->
  shr_1 {| shr_m := m; shr_r := r; shr_s := s |} =
  {| shr_m := m / 2; shr_r := Z.odd m; shr_s := r || s |}.
Proof.
  intros Hm. destruct m as [|p|p]; try lia.
  - reflexivity.
  - destruct p; cbn [shr_1]; f_equal.
    + rewrite Pos2Z.inj_xI. apply (Z.div_unique _ _ _ 1); lia.
    + rewrite Pos2Z.inj_xO. apply (Z.div_unique _ _ _ 0); lia.
Qed.

Lemma shr_record_of_loc_m m l : shr_m (shr_record_of_loc m l) = m.
Proof. destruct l as [|[]]; reflexivity. Qed.

Lemma shr_1_of_loc (m : Z) (l : location) :
  0 <= m ->
  shr_1 (shr_record_of_loc m l) =
  {| shr_m := m / 2; shr_r := Z.odd m; shr_s := inexact l |}.
Proof.
  intros Hm. destruct l as [|[]]; unfold shr_record_of_loc;
    rewrite shr_1_spec by assumption; reflexivity.
Qed.

(* the mantissa after the one-bit shift and rounding *)

Lemma round_half_bounds q sticky :
  2 ^ 53 <= q < 2 ^ 54 -> 2 ^ 52 <= round_half q sticky <= 2 ^ 53.
Proof.
  intros Hq. unfold round_half.
  assert (H2 : 2 ^ 52 <= q / 2 < 2 ^ 53).
  { change (2 ^ 53) with (2 * 2 ^ 52) in Hq. change (2 ^ 54) with (2 * 2 ^ 53) in Hq.
    split; [apply Z.div_le_lower_bound | apply Z.div_lt_upper_bound]; lia. }
  destruct (Z.odd q), sticky; cbn [loc_of_shr_record round_nearest_even]; try lia.
  destruct (Z.even (q / 2)); lia.
Qed.


(** Rounding a 54-bit mantissa: one shift, then the carry if the rounded
    mantissa reaches [2 ^ 53]. *)

Lemma binary_round_aux_54 (q e : Z) (l : location) :
  2 ^ 53 <= q < 2 ^ 54 -> -1074 <= e <= 900 ->
  binary_round_aux Float.prec Float.emax false q e l =
  if round_half q (inexact l) =? 2 ^ 53
  then S754_finite false (Z.to_pos (2 ^ 52)) (e + 2)
  else S754_finite false (Z.to_pos (round_half q (inexact l))) (e + 1).
Proof.
  intros Hq He.
  pose proof (round_half_bounds q (inexact l) Hq) as Hb.
  unfold binary_round_aux.
  assert (H1 : shr_fexp Float.prec Float.emax q e l =
               ({| shr_m := q / 2; shr_r := Z.odd q; shr_s := inexact l |}, e + 1)).
  { unfold shr_fexp. rewrite (Zdigits2_range q 54) by (change (54 - 1) with 53; lia).
    rewrite fexp_normal by lia.
    replace (54 + e - 53 - e) with 1 by lia.
    cbn [shr iter_pos]. rewrite shr_1_of_loc by lia. reflexivity. }
  rewrite H1. cbn [shr_m]. fold (round_half q (inexact l)).
  set (M := round_half q (inexact l)) in *.
  destruct (Z.eqb_spec M (2 ^ 53)) as [E|E].
  - rewrite E. unfold shr_fexp.
    rewrite (Zdigits2_range (2 ^ 53) 54) by (change (54 - 1) with 53; lia).
    rewrite fexp_normal by lia.
    replace (54 + (e + 1) - 53 - (e + 1)) with 1 by lia.
    cbn [shr iter_pos shr_record_of_loc]. rewrite shr_1_spec by lia.
    cbn [shr_m]. change (2 ^ 53 / 2) with (2 ^ 52).
    change (2 ^ 52) with (Zpos (Z.to_pos (2 ^ 52))) at 1. cbv iota beta.
    replace (e + 1 + 1) with (e + 2) by lia.
    destruct (Z.leb_spec (e + 2) (Float.emax - Float.prec)); [reflexivity|].
    unfold Float.emax, Float.prec in *; lia.
  - unfold shr_fexp.
    rewrite (Zdigits2_range M 53) by (change (53 - 1) with 52; lia).
    rewrite fexp_normal by lia.
    replace (53 + (e + 1) - 53 - (e + 1)) with 0 by lia.
    cbn [shr shr_record_of_loc shr_m].
    assert (HM : M = Zpos (Z.to_pos M)) by (rewrite Z2Pos.id; lia).
    rewrite HM at 1. cbv iota beta.
    destruct (Z.leb_spec (e + 1) (Float.emax - Float.prec)); [reflexivity|].
    unfold Float.emax, Float.prec in *; lia.
Qed.


(** ** The integer division [n / 2 ** 64] *)

Lemma div_core_pow64 (n : Z) :
  0 < n < 2 ^ 64 ->
  let X := n * 2 ^ (117 - Z.log2 n) in
  SFdiv_core_binary Float.prec Float.emax n 0 (2 ^ 64) 0 =
  (X / 2 ^ 64, Z.log2 n - 117,
   if X mod 2 ^ 64 =? 0 then loc_Exact
   else loc_Inexact (2 * (X mod 2 ^ 64) ?= 2 ^ 64)).
Proof.
  intros Hn X. pose proof (log2_lt_64 n Hn) as Hd.
  unfold SFdiv_core_binary.
  rewrite (Zdigits2_log2 n) by lia.
  change (Zdigits2 (2 ^ 64)) with 65.
  rewrite fexp_normal by lia.
  replace (Z.min (Z.log2 n + 1 + 0 - (65 + 0) - 53) (0 - 0)) with (Z.log2 n - 117) by lia.
  replace (0 - 0 - (Z.log2 n - 117)) with (117 - Z.log2 n) by lia.
  destruct (117 - Z.log2 n) as [|s|s] eqn:Es; try lia.
  rewrite Z.shiftl_mul_pow2 by lia.
  rewrite div_eucl_div_mod. subst X. cbv zeta.
  change (new_location (2 ^ 64)) with (new_location_even (2 ^ 64)).
  unfold new_location_even. reflexivity.
Qed.

Lemma round_half_rne (n k : Z) :
  0 <= n -> 1 <= k ->
  round_half (n / 2 ^ (k - 1)) (negb (n mod 2 ^ (k - 1) =? 0)) = Float.rne n k.
Proof.
  intros Hn Hk. unfold round_half, Float.rne.
  set (P := 2 ^ (k - 1)).
  assert (HP : 0 < P) by (apply Z.pow_pos_nonneg; lia).
  assert (E2 : 2 ^ k = P * 2).
  { replace k with (k - 1 + 1) at 1 by lia. rewrite Z.pow_add_r by lia. reflexivity. }
  rewrite E2. rewrite <- Z.div_div by lia.
  rewrite Z.rem_mul_r by lia.
  pose proof (Z.mod_pos_bound n P HP) as Hlow.
  rewrite (Zmod_odd (n / P)).
  destruct (Z.odd (n / P)) eqn:Eo.
  - destruct (Z.eqb_spec (n mod P) 0) as [E0|E0]; cbn [negb loc_of_shr_record round_nearest_even].
    + rewrite E0. replace (2 * (0 + P * 1)) with (P * 2) by lia.
      rewrite Z.compare_refl. reflexivity.
    + assert (Hgt : (2 * (n mod P + P * 1) ?= P * 2) = Gt) by (apply Z.compare_gt_iff; lia).
      rewrite Hgt. reflexivity.
  - assert (Hlt : (2 * (n mod P + P * 0) ?= P * 2) = Lt) by (apply Z.compare_lt_iff; lia).
    rewrite Hlt.
    destruct (negb (n mod P =? 0)); reflexivity.
Qed.

Lemma round53_small (n : Z) : 0 <= n < 2 ^ 53 -> Float.round53 n = n.
Proof.
  intros Hn. unfold Float.round53.
  assert (Hl : Z.log2 n <= 52).
  { destruct (Z.eq_dec n 0) as [->|]; [simpl; lia|].
    assert (Z.log2 n < 53) by (apply Z.log2_lt_pow2; lia). lia. }
  replace (Z.max 0 (Z.log2 n - 52)) with 0 by lia.
  unfold Float.rne. change (2 ^ 0) with 1.
  rewrite Z.mod_1_r, Z.div_1_r. simpl. lia.
Qed.


(** The float [n / 2 ** 64] is, for a positive 64-bit [n], a normal number
    whose value is [round53 n / 2 ^ 64]. *)

Lemma int_truediv_pow64 (n : Z) :
  0 < n < 2 ^ 64 ->
  exists m e,
    Float.int_truediv n (2 ^ 64) = S754_finite false m e /\
    -116 <= e <= -52 /\
    2 ^ 52 <= Zpos m < 2 ^ 53 /\
    Zpos m * 2 ^ (e + 117) = Float.round53 n * 2 ^ 53.
Proof.
  intros Hn. pose proof (log2_lt_64 n Hn) as Hd.
  pose proof (log2_digits_bounds n (proj1 Hn)) as Hb.
  unfold Float.int_truediv.
  destruct n as [|p|p]; try lia.
  change (xorb (Z.pos p <? 0) (2 ^ 64 <? 0)) with false.
  change (Z.abs (Z.pos p)) with (Z.pos p). change (Z.abs (2 ^ 64)) with (2 ^ 64).
  set (n := Z.pos p) in *.
  rewrite (div_core_pow64 n Hn).
  set (X := n * 2 ^ (117 - Z.log2 n)).
  set (st := inexact (if X mod 2 ^ 64 =? 0 then loc_Exact
                      else loc_Inexact (2 * (X mod 2 ^ 64) ?= 2 ^ 64))).
  assert (Hst : st = negb (X mod 2 ^ 64 =? 0)).
  { subst st. destruct (X mod 2 ^ 64 =? 0); reflexivity. }
  assert (HX : 2 ^ 117 <= X < 2 ^ 118).
  { subst X.
    replace (2 ^ 117) with (2 ^ Z.log2 n * 2 ^ (117 - Z.log2 n))
      by (rewrite <- Z.pow_add_r by lia; f_equal; lia).
    replace (2 ^ 118) with (2 ^ (Z.log2 n + 1) * 2 ^ (117 - Z.log2 n))
      by (rewrite <- Z.pow_add_r by lia; f_equal; lia).
    assert (0 < 2 ^ (117 - Z.log2 n)) by (apply Z.pow_pos_nonneg; lia).
    nia. }
  assert (Hq : 2 ^ 53 <= X / 2 ^ 64 < 2 ^ 54).
  { change (2 ^ 117) with (2 ^ 64 * 2 ^ 53) in HX. change (2 ^ 118) with (2 ^ 64 * 2 ^ 54) in HX.
    split; [apply Z.div_le_lower_bound | apply Z.div_lt_upper_bound]; lia. }
  rewrite binary_round_aux_54 by lia. fold st.
  pose proof (round_half_bounds (X / 2 ^ 64) st Hq) as HM.
  (* the rounded mantissa, in terms of [n] *)
  assert (Hval : round_half (X / 2 ^ 64) st * 2 ^ (Z.log2 n + 1) = Float.round53 n * 2 ^ 53).
  { rewrite Hst. destruct (Z_le_gt_dec (Z.log2 n) 52) as [Hs|Hs].
    - rewrite round53_small.
      2:{ split; [lia|]. eapply Z.lt_le_trans; [apply Hb|]. apply Z.pow_le_mono_r; lia. }
      assert (EX : X = (n * 2 ^ (53 - Z.log2 n)) * 2 ^ 64).
      { subst X. rewrite <- Z.mul_assoc, <- Z.pow_add_r by lia. do 2 f_equal. lia. }
      rewrite EX, Z.mod_mul, Z.div_mul by lia.
      unfold round_half.
      assert (E2 : n * 2 ^ (53 - Z.log2 n) = (n * 2 ^ (52 - Z.log2 n)) * 2).
      { rewrite <- Z.mul_assoc. f_equal. replace (53 - Z.log2 n) with (52 - Z.log2 n + 1) by lia.
        rewrite Z.pow_add_r by lia. reflexivity. }
      rewrite E2, Z.div_mul by lia.
      replace (Z.odd (n * 2 ^ (52 - Z.log2 n) * 2)) with false.
      2:{ symmetry. rewrite Z.odd_mul. simpl. apply andb_false_r. }
      cbn [Z.eqb negb loc_of_shr_record round_nearest_even].
      rewrite <- Z.mul_assoc, <- Z.pow_add_r by lia. do 2 f_equal. lia.
    - set (k := Z.log2 n - 52).
      assert (EX : X = n * 2 ^ (65 - k)) by (subst X k; do 2 f_equal; lia).
      assert (E64 : 2 ^ 64 = 2 ^ (k - 1) * 2 ^ (65 - k)).
      { rewrite <- Z.pow_add_r by (subst k; lia). f_equal. lia. }
      assert (0 < 2 ^ (65 - k)) by (apply Z.pow_pos_nonneg; subst k; lia).
      assert (0 < 2 ^ (k - 1)) by (apply Z.pow_pos_nonneg; subst k; lia).
      rewrite E64, EX.
      rewrite Z.div_mul_cancel_r by lia.
      rewrite Z.mul_mod_distr_r by lia.
      replace (n mod 2 ^ (k - 1) * 2 ^ (65 - k) =? 0) with (n mod 2 ^ (k - 1) =? 0).
      2:{ destruct (Z.eqb_spec (n mod 2 ^ (k - 1)) 0) as [->|E]; [reflexivity|].
          symmetry. apply Z.eqb_neq. nia. }
      rewrite round_half_rne by (subst k; lia).
      unfold Float.round53. fold k. replace (Z.max 0 k) with k by (subst k; lia).
      rewrite <- Z.mul_assoc, <- Z.pow_add_r by (subst k; lia).
      do 2 f_equal. subst k. lia. }
  destruct (Z.eqb_spec (round_half (X / 2 ^ 64) st) (2 ^ 53)) as [E|E].
  - exists (Z.to_pos (2 ^ 52)), (Z.log2 n - 117 + 2). split; [reflexivity|].
    split; [lia|]. split; [simpl; lia|].
    rewrite <- Hval, E. change (Z.pos (Z.to_pos (2 ^ 52))) with (2 ^ 52).
    rewrite <- !Z.pow_add_r by lia. f_equal. lia.
  - exists (Z.to_pos (round_half (X / 2 ^ 64) st)), (Z.log2 n - 117 + 1). split; [reflexivity|].
    rewrite Z2Pos.id by lia.
    split; [lia|]. split; [lia|].
    rewrite <- Hval. do 2 f_equal. lia.
Qed.


(** ** Rounding to 53 bits: error and range *)

Lemma rne_error (n k : Z) :
  1 <= k -> 2 * Z.abs (Float.rne n k * 2 ^ k - n) <= 2 ^ k.
Proof.
  intros Hk. unfold Float.rne.
  assert (HP : 0 < 2 ^ k) by (apply Z.pow_pos_nonneg; lia).
  pose proof (Z.div_mod n (2 ^ k) ltac:(lia)) as Hdm.
  pose proof (Z.mod_pos_bound n (2 ^ k) HP) as Hm.
  destruct (Z.compare_spec (2 * (n mod 2 ^ k)) (2 ^ k)) as [E|E|E].
  - destruct (Z.even (n / 2 ^ k)); nia.
  - nia.
  - nia.
Qed.

Lemma round53_error (n : Z) :
  0 <= n < 2 ^ 64 -> Z.abs (Float.round53 n - n) <= 2 ^ 10.
Proof.
  intros Hn. destruct (Z_lt_ge_dec n (2 ^ 53)) as [Hs|Hs].
  - rewrite round53_small by lia. rewrite Z.sub_diag. simpl. lia.
  - unfold Float.round53.
    assert (Hl : 53 <= Z.log2 n < 64).
    { split; [apply Z.log2_le_pow2; lia | apply Z.log2_lt_pow2; lia]. }
    set (k := Z.log2 n - 52). replace (Z.max 0 k) with k by (subst k; lia).
    pose proof (rne_error n k ltac:(subst k; lia)) as He.
    assert (2 ^ k <= 2 ^ 11) by (apply Z.pow_le_mono_r; subst k; lia).
    change (2 ^ 11) with (2 * 2 ^ 10) in *. lia.
Qed.

Lemma rne_mono_mult (n k c : Z) :
  0 <= k -> n <= c * 2 ^ k -> Float.rne n k <= c.
Proof.
  intros Hk Hn. unfold Float.rne.
  assert (HP : 0 < 2 ^ k) by (apply Z.pow_pos_nonneg; lia).
  pose proof (Z.div_mod n (2 ^ k) ltac:(lia)) as Hdm.
  pose proof (Z.mod_pos_bound n (2 ^ k) HP) as Hm.
  destruct (Z.compare_spec (2 * (n mod 2 ^ k)) (2 ^ k)) as [E|E|E];
    [destruct (Z.even (n / 2 ^ k))| |]; nia.
Qed.

Lemma round53_lt_one (n : Z) :
  0 <= n < 2 ^ 64 - 1024 -> Float.round53 n < 2 ^ 64.
Proof.
  intros Hn. destruct (Z_lt_ge_dec n (2 ^ 53)) as [Hs|Hs].
  - rewrite round53_small by lia. lia.
  - unfold Float.round53.
    assert (Hl : 53 <= Z.log2 n < 64).
    { split; [apply Z.log2_le_pow2; lia | apply Z.log2_lt_pow2; lia]. }
    pose proof (log2_digits_bounds n ltac:(lia)) as Hb.
    set (k := Z.log2 n - 52) in *. replace (Z.max 0 k) with k by (subst k; lia).
    assert (HP : 0 < 2 ^ k) by (apply Z.pow_pos_nonneg; subst k; lia).
    destruct (Z.eq_dec (Z.log2 n) 63) as [E63|E63].
    + assert (Ek : k = 11) by (subst k; lia). rewrite Ek in *.
      pose proof (rne_error n 11 ltac:(lia)) as He.
      (* the result is a multiple of 2^11 within 2^10 of n < 2^64 - 2^10 *)
      change (2 ^ 64) with (2 ^ 53 * 2 ^ 11).
      apply Z.mul_lt_mono_pos_r; [lia|].
      change (2 ^ 64) with (2 ^ 53 * 2 ^ 11) in Hn.
      change (2 ^ 11) with 2048 in *. lia.
    + (* n < 2^63, so the result is at most 2^63 *)
      assert (Hn63 : n < 2 ^ 63).
      { eapply Z.lt_le_trans; [apply Hb|]. apply Z.pow_le_mono_r; lia. }
      assert (Hr : Float.rne n k <= 2 ^ (63 - k)).
      { apply rne_mono_mult; [subst k; lia|].
        rewrite <- Z.pow_add_r by (subst k; lia). replace (63 - k + k) with 63 by lia. lia. }
      assert (Float.rne n k * 2 ^ k <= 2 ^ (63 - k) * 2 ^ k) by nia.
      rewrite <- Z.pow_add_r in H by (subst k; lia). replace (63 - k + k) with 63 in H by lia.
      assert (2 ^ 63 < 2 ^ 64) by (apply Z.pow_lt_mono_r; lia). lia.
Qed.

Lemma round53_top (n : Z) :
  2 ^ 64 - 1024 <= n < 2 ^ 64 -> Float.round53 n = 2 ^ 64.
Proof.
  intros Hn. unfold Float.round53.
  assert (El : Z.log2 n = 63) by (apply Z.log2_unique; [lia|]; change (Z.succ 63) with 64; lia).
  rewrite El. change (Z.max 0 (63 - 52)) with 11.
  pose proof (rne_error n 11 ltac:(lia)) as He.
  assert (2 ^ 53 - 1 < Float.rne n 11 \/ Float.rne n 11 <= 2 ^ 53 - 1) as [H|H] by lia.
  - assert (Float.rne n 11 <= 2 ^ 53).
    { apply rne_mono_mult; [lia|]. change (2 ^ 53 * 2 ^ 11) with (2 ^ 64). lia. }
    replace (Float.rne n 11) with (2 ^ 53) by lia. reflexivity.
  - exfalso.
    (* rne n 11 = 2^53 - 1 would need n <= 2^64 - 2^11 + 2^10, and at equality the tie goes to the even 2^53 *)
    unfold Float.rne in H, He.
    pose proof (Z.div_mod n (2 ^ 11) ltac:(lia)) as Hdm.
    pose proof (Z.mod_pos_bound n (2 ^ 11) ltac:(lia)) as Hm.
    assert (Hq : n / 2 ^ 11 = 2 ^ 53 - 1).
    { symmetry. apply (Z.div_unique n (2 ^ 11) (2 ^ 53 - 1) (n - (2 ^ 53 - 1) * 2 ^ 11)).
      - left. change (2 ^ 64) with (2 ^ 53 * 2 ^ 11) in Hn. change (2 ^ 11) with 2048 in *. lia.
      - lia. }
    rewrite Hq in *.
    change (Z.even (2 ^ 53 - 1)) with false in *.
    destruct (Z.compare_spec (2 * (n mod 2 ^ 11)) (2 ^ 11)) as [E|E|E]; lia.
Qed.

Lemma round53_nonneg (n : Z) : 0 <= n -> 0 <= Float.round53 n.
Proof.
  intros Hn. unfold Float.round53, Float.rne.
  set (k := Z.max 0 (Z.log2 n - 52)).
  assert (HP : 0 < 2 ^ k) by (apply Z.pow_pos_nonneg; lia).
  assert (0 <= n / 2 ^ k) by (apply Z.div_pos; lia).
  destruct (2 * (n mod 2 ^ k) ?= 2 ^ k); [destruct (Z.even (n / 2 ^ k))| |]; nia.
Qed.


(** ** Signs and comparisons *)

Lemma nonneg_cases (x : Float.float) :
  nonneg x <->
  match x with
  | S754_zero _ | S754_infinity false | S754_finite false _ _ => True
  | _ => False
  end.
Proof.
  unfold nonneg, Float.leb, SFleb, Float.zero.
  destruct x as [s|s| |s m e]; try destruct s; simpl; intuition congruence.
Qed.

Lemma iter_pos_invariant {A} (P : A -> Prop) (f : A -> A) :
  (forall x, P x -> P (f x)) -> forall p x, P x -> P (iter_pos f p x).
Proof.
  intros Hf. induction p as [p IH|p IH|]; intros x Hx; cbn [iter_pos]; auto.
Qed.

Lemma shr_1_nonneg mrs : 0 <= shr_m mrs -> 0 <= shr_m (shr_1 mrs).
Proof.
  destruct mrs as [m r s]. cbn [shr_m]. intros Hm.
  destruct m as [|[p|p|]|p]; cbn; lia.
Qed.

Lemma shr_fexp_nonneg m e l :
  0 <= m -> 0 <= shr_m (fst (shr_fexp Float.prec Float.emax m e l)).
Proof.
  intros Hm. unfold shr_fexp, shr.
  destruct (fexp Float.prec Float.emax (Zdigits2 m + e) - e) as [|p|p]; cbn [fst];
    try (rewrite shr_record_of_loc_m; exact Hm).
  apply (iter_pos_invariant (fun r => 0 <= shr_m r)).
  - apply shr_1_nonneg.
  - rewrite shr_record_of_loc_m; exact Hm.
Qed.

Lemma round_nearest_even_nonneg m l : 0 <= m -> 0 <= round_nearest_even m l.
Proof.
  intros Hm. destruct l as [|[]]; cbn; try lia. destruct (Z.even m); lia.
Qed.

Lemma binary_round_aux_nonneg m e l :
  0 <= m -> nonneg (binary_round_aux Float.prec Float.emax false m e l).
Proof.
  intros Hm. apply nonneg_cases. unfold binary_round_aux.
  pose proof (shr_fexp_nonneg m e l Hm) as H1.
  destruct (shr_fexp Float.prec Float.emax m e l) as [mrs' e'].
  cbn [fst] in H1.
  pose proof (shr_fexp_nonneg _ e' loc_Exact
                (round_nearest_even_nonneg _ (loc_of_shr_record mrs') H1)) as H2.
  destruct (shr_fexp Float.prec Float.emax
              (round_nearest_even (shr_m mrs') (loc_of_shr_record mrs')) e' loc_Exact)
    as [mrs'' e''].
  cbn [fst] in H2.
  destruct (shr_m mrs'') as [|p|p]; try exact I; try lia.
  destruct (e'' <=? Float.emax - Float.prec); exact I.
Qed.

Lemma add_nonneg (x y : Float.float) : nonneg x -> nonneg y -> nonneg (Float.add x y).
Proof.
  intros Hx Hy. apply nonneg_cases in Hx. apply nonneg_cases in Hy.
  destruct x as [sx|[]| |[] mx ex]; try contradiction;
  destruct y as [sy|[]| |[] my ey]; try contradiction;
    try (apply nonneg_cases; cbn; try destruct sx; try destruct sy; exact I).
  unfold Float.add, SFadd. cbn [cond_Zopp].
  unfold binary_normalize.
  destruct (shl_align mx ex (Z.min ex ey)) as [a ea], (shl_align my ey (Z.min ex ey)) as [b eb].
  cbn [fst]. change (Z.pos a + Z.pos b) with (Z.pos (a + b)).
  unfold binary_round.
  destruct (shl_align (a + b) (Z.min ex ey) _) as [mz ez].
  apply binary_round_aux_nonneg. lia.
Qed.

Lemma nonneg_not_nan x : nonneg x -> Float.is_nan x = false.
Proof. intros H. apply nonneg_cases in H. destruct x; try reflexivity; contradiction. Qed.

Lemma SFcompare_antisym (x y : Float.float) :
  SFcompare y x = option_map CompOpp (SFcompare x y).
Proof.
  destruct x as [sx|sx| |sx mx ex], y as [sy|sy| |sy my ey];
    try destruct sx; try destruct sy; try reflexivity; cbn [SFcompare option_map];
    rewrite (Z.compare_antisym ex ey); destruct (ex ?= ey); cbn [CompOpp]; try reflexivity;
    rewrite (Pos.compare_cont_antisym mx my Eq); cbn [CompOpp];
    try rewrite CompOpp_involutive; reflexivity.
Qed.

Lemma ltb_false_leb (x y : Float.float) :
  Float.is_nan x = false -> Float.is_nan y = false ->
  Float.ltb x y = false -> Float.leb y x = true.
Proof.
  unfold Float.ltb, Float.leb, SFltb, SFleb. intros Hx Hy.
  rewrite (SFcompare_antisym x y).
  destruct (SFcompare x y) as [[]|] eqn:E; cbn; try congruence.
  destruct x, y; try discriminate; simpl in E; try discriminate;
   repeat match goal with s : bool |- _ => destruct s end; discriminate.
Qed.

Lemma ltb_true_leb_false (x y : Float.float) :
  Float.ltb x y = true -> Float.leb y x = false.
Proof.
  unfold Float.ltb, Float.leb, SFltb, SFleb.
  rewrite (SFcompare_antisym x y).
  destruct (SFcompare x y) as [[]|]; cbn; congruence.
Qed.

Lemma leb_true_ltb_false (x y : Float.float) :
  Float.leb y x = true -> Float.ltb x y = false.
Proof.
  intros H. destruct (Float.ltb x y) eqn:E; [|reflexivity].
  apply ltb_true_leb_false in E. congruence.
Qed.

Lemma leb_not_nan_r x y : Float.leb x y = true -> Float.is_nan y = false.
Proof.
  unfold Float.leb, SFleb. destruct x, y; try reflexivity; cbn; congruence.
Qed.

Lemma eqb_one (x : Float.float) : Float.eqb x Float.one = true -> x = Float.one.
Proof.
  unfold Float.eqb, SFeqb, Float.one.
  destruct x as [s|s| |s m e].
  - destruct s; intros Hc; discriminate Hc.
  - destruct s; intros Hc; discriminate Hc.
  - intros Hc; discriminate Hc.
  - destruct s.
    + intros Hc; discriminate Hc.
    + cbv beta iota delta [SFcompare].
      destruct (Z.compare_spec e (-52)) as [E|E|E].
      * rewrite Pos.compare_cont_spec.
        destruct (Pos.compare_spec m 4503599627370496) as [Em|Em|Em];
          cbv beta iota delta [Pos.switch_Eq].
        -- intros _. rewrite E, Em. reflexivity.
        -- intros Hc; discriminate Hc.
        -- intros Hc; discriminate Hc.
      * intros Hc; discriminate Hc.
      * intros Hc; discriminate Hc.
Qed.

Lemma Forall_firstn_weights {A} (P : A -> Prop) (l : list A) (j : nat) :
  Forall P l -> Forall P (firstn j l).
Proof.
  intros H. revert j. induction H as [|x l Hx Hl IH]; intros [|j]; cbn [firstn]; auto.
Qed.

Lemma fold_add_nonneg (l : list Float.float) :
  forall c, nonneg c -> Forall nonneg l -> nonneg (fold_left Float.add l c).
Proof.
  induction l as [|w l IH]; intros c Hc Hl; [exact Hc|].
  cbn [fold_left]. inversion Hl; subst. apply IH; [apply add_nonneg; assumption | assumption].
Qed.


End Binary64Facts.

Local Open Scope Z_scope.
Local Open Scope string_scope.

(** * The uniform deriver *)

(** ** The digest prefix is a 64-bit number *)

Lemma byte_val_bound (b : byte) : 0 <= Sha256.byte_val b < 256.
Proof.
  unfold Sha256.byte_val. pose proof (Byte.to_N_bounded b). lia.
Qed.

Lemma be_value_acc (bs : list byte) (acc : Z) :
  0 <= acc ->
  0 <= fold_left (fun a b => a * 256 + Sha256.byte_val b) bs acc
    < (acc + 1) * 2 ^ (8 * Z.of_nat (List.length bs)).
Proof.
  revert acc. induction bs as [|b bs IH]; intros acc Hacc.
  - simpl. lia.
  - cbn [fold_left List.length]. pose proof (byte_val_bound b) as Hb.
    specialize (IH (acc * 256 + Sha256.byte_val b) ltac:(lia)).
    rewrite Nat2Z.inj_succ.
    replace (8 * Z.succ (Z.of_nat (List.length bs))) with (8 + 8 * Z.of_nat (List.length bs)) by lia.
    rewrite Z.pow_add_r by lia. change (2 ^ 8) with 256.
    assert (0 < 2 ^ (8 * Z.of_nat (List.length bs))) by (apply Z.pow_pos_nonneg; lia).
    nia.
Qed.

Lemma be_value_prefix_bound (bs : list byte) :
  0 <= Sha256.be_value (firstn 8 bs) < 2 ^ 64.
Proof.
  unfold Sha256.be_value.
  pose proof (be_value_acc (firstn 8 bs) 0 ltac:(lia)) as H.
  assert (Hl : (List.length (firstn 8 bs) <= 8)%nat) by apply firstn_le_length.
  assert (2 ^ (8 * Z.of_nat (List.length (firstn 8 bs))) <= 2 ^ 64)
    by (apply Z.pow_le_mono_r; lia).
  lia.
Qed.

(* predicates on floats *)

Lemma digest_prefix_bound self v : 0 <= digest_prefix self v < 2 ^ 64.
Proof. apply be_value_prefix_bound. Qed.

Lemma int_truediv_pow64_finite (n : Z) :
  0 <= n < 2 ^ 64 -> Float.isfinite (Float.int_truediv n (2 ^ 64)) = true.
Proof.
  intros Hn. destruct (Z.eq_dec n 0) as [->|Hz]; [reflexivity|].
  destruct (int_truediv_pow64 n ltac:(lia)) as (m & e & -> & _). reflexivity.
Qed.


(** [_hash_to_float] hashes one message and never raises. *)

Lemma hash_to_float_run (self : ABSplitter) (v : value) (t : trace) :
  _hash_to_float self v t =
  (inr (Float.int_truediv (digest_prefix self v) (2 ^ 64)),
   (t ++ [encode (combined self v)])%list).
Proof.
  unfold _hash_to_float, bind, hashlib_sha256_digest, py_truediv.
  fold (digest_prefix self v).
  pose proof (int_truediv_pow64_finite _ (digest_prefix_bound self v)) as Hf.
  change (Z.eqb (2 ^ 64) 0) with false. cbv iota.
  destruct (Float.int_truediv (digest_prefix self v) (2 ^ 64)); try discriminate Hf; reflexivity.
Qed.


(** The rational value of the float [n / 2 ** 64]. *)

Lemma int_truediv_pow64_to_Q (n : Z) :
  0 <= n < 2 ^ 64 ->
  exists q, Float.to_Q (Float.int_truediv n (2 ^ 64)) = Some q /\
            (q == Float.round53 n # 2 ^ 64)%Q.
Proof.
  intros Hn. destruct (Z.eq_dec n 0) as [->|Hz].
  - exists (0 # 1)%Q. split; reflexivity.
  - destruct (int_truediv_pow64 n ltac:(lia)) as (m & e & -> & He & Hm & Hv).
    destruct e as [|p|p]; try lia.
    exists (Z.pos m # 2 ^ p)%Q. split; [reflexivity|].
    unfold Qeq. cbn [Qnum Qden].
    rewrite !Pos2Z.inj_pow.
    assert (E : Z.pos m * 2 ^ 117 = Float.round53 n * 2 ^ 53 * 2 ^ Z.pos p).
    { rewrite <- Hv, <- Z.mul_assoc, <- Z.pow_add_r by lia. do 2 f_equal. lia. }
    change (2 ^ 117) with (2 ^ 64 * 2 ^ 53) in E.
    apply (Z.mul_reg_r _ _ (2 ^ 53)); [lia|].
    rewrite <- !Z.mul_assoc, (Z.mul_comm (2 ^ Z.pos p)). rewrite !Z.mul_assoc.
    rewrite <- E. ring.
Qed.

Lemma int_truediv_pow64_facts (n : Z) :
  0 <= n < 2 ^ 64 ->
  exists q,
    Float.to_Q (Float.int_truediv n (2 ^ 64)) = Some q /\
    (q == Float.round53 n # 2 ^ 64)%Q /\
    (Qabs (q - (n # 2 ^ 64)) <= 1 # 2 ^ 54)%Q /\
    (0 <= q <= 1)%Q /\
    (n < 2 ^ 53 -> (q == n # 2 ^ 64)%Q) /\
    (n < 2 ^ 64 - 1024 -> (q < 1)%Q).
Proof.
  intros Hn.
  destruct (int_truediv_pow64_to_Q n Hn) as (q & Hq & Eq).
  exists q. split; [exact Hq|]. split; [exact Eq|].
  pose proof (round53_error n Hn) as Herr.
  assert (Hle : 0 <= Float.round53 n <= 2 ^ 64).
  { pose proof (round53_nonneg n ltac:(lia)) as Hnn.
    destruct (Z_lt_ge_dec n (2 ^ 64 - 1024)) as [H|H].
    - pose proof (round53_lt_one n ltac:(lia)). lia.
    - rewrite round53_top by lia. lia. }
  split; [|split; [|split]].
  - rewrite Eq. apply Qabs_Qle_condition.
    unfold Qle, Qminus, Qplus, Qopp. cbn [Qnum Qden].
    change (Z.pos (2 ^ 64)) with (2 ^ 64). change (Z.pos (2 ^ 54)) with (2 ^ 54).
    change (Z.pos (2 ^ 64 * 2 ^ 64)) with (2 ^ 64 * 2 ^ 64).
    assert (E : 2 ^ 64 = 2 ^ 10 * 2 ^ 54) by reflexivity.
    assert (0 < 2 ^ 54) by lia. assert (0 < 2 ^ 64) by lia. nia.
  - rewrite Eq. unfold Qle. cbn [Qnum Qden]. change (Z.pos (2 ^ 64)) with (2 ^ 64). lia.
  - intros Hs. rewrite Eq, round53_small by lia. reflexivity.
  - intros Hs. rewrite Eq. pose proof (round53_lt_one n ltac:(lia)).
    unfold Qlt. cbn [Qnum Qden]. change (Z.pos (2 ^ 64)) with (2 ^ 64). lia.
Qed.


(** * The bucket loop *)

Section Scan.
Context {F : Type} `{Number F}.

Lemma cum_S (c w : F) (ws : list F) (j : nat) :
  cum c (w :: ws) (S j) = cum (num_add c w) ws j.
Proof. reflexivity. Qed.

Lemma cum_step (c : F) (ws : list F) (i : nat) (w : F) :
  nth_error ws i = Some w -> cum c ws (S i) = num_add (cum c ws i) w.
Proof.
  revert c i. induction ws as [|x ws IH]; intros c [|i] Hn; try discriminate.
  - inversion Hn; subst. reflexivity.
  - rewrite !cum_S. apply IH. exact Hn.
Qed.

Lemma scan_some (bucket : F) (pairs : list (string * F)) :
  forall c g,
  scan bucket c pairs = Some g ->
  exists i w,
    nth_error pairs i = Some (g, w) /\
    num_ltb bucket (cum c (map snd pairs) (S i)) = true /\
    forall j, (j < i)%nat -> num_ltb bucket (cum c (map snd pairs) (S j)) = false.
Proof.
  induction pairs as [|[g0 w0] rest IH]; intros c g Hs; [discriminate|].
  cbn [scan] in Hs.
  destruct (num_ltb bucket (num_add c w0)) eqn:E.
  - inversion Hs; subst g0. exists 0%nat, w0. split; [reflexivity|].
    split; [exact E|]. intros j Hj; lia.
  - destruct (IH _ _ Hs) as (i & w & Hn & Hlt & Hfirst).
    exists (S i), w. split; [exact Hn|].
    cbn [map snd]. rewrite cum_S. split; [exact Hlt|].
    intros [|j] Hj.
    + exact E.
    + rewrite cum_S. apply Hfirst. lia.
Qed.

Lemma scan_none (bucket : F) (pairs : list (string * F)) :
  forall c,
  scan bucket c pairs = None <->
  forall j, (j < List.length pairs)%nat -> num_ltb bucket (cum c (map snd pairs) (S j)) = false.
Proof.
  induction pairs as [|[g0 w0] rest IH]; intros c.
  - split; [intros _ j Hj; simpl in Hj; lia | reflexivity].
  - cbn [scan map snd List.length]. split.
    + intros Hs. destruct (num_ltb bucket (num_add c w0)) eqn:E; [discriminate|].
      intros [|j] Hj; [exact E|]. rewrite cum_S. apply (proj1 (IH _) Hs). lia.
    + intros Hall.
      assert (E : num_ltb bucket (num_add c w0) = false) by (apply (Hall 0%nat); lia).
      rewrite E.
      apply IH. intros j Hj. rewrite <- cum_S. apply Hall. lia.
Qed.

Lemma scan_in (bucket : F) (pairs : list (string * F)) c g :
  scan bucket c pairs = Some g -> In g (map fst pairs).
Proof.
  intros Hs. destruct (scan_some _ _ _ _ Hs) as (i & w & Hn & _).
  apply nth_error_In in Hn. apply (in_map fst) in Hn. exact Hn.
Qed.

Lemma pick_not_ValueError (bucket : F) (groups : list string) (ws : list F) :
  pick bucket groups ws <> inl ValueError.
Proof.
  unfold pick. destruct (scan _ _ _); [discriminate|].
  destruct groups; discriminate.
Qed.


End Scan.

(** [groups[-1]] and the lists that [zip] pairs up *)

Lemma last_cons (rest : list string) (g a : string) :
  last (a :: rest) g = last rest a.
Proof.
  revert a g. induction rest as [|b rest IH]; intros a g; [reflexivity|].
  change (last (a :: b :: rest) g) with (last (b :: rest) g).
  rewrite (IH b g), (IH b a). reflexivity.
Qed.

Lemma last_in (rest : list string) (g : string) : In (last rest g) (g :: rest).
Proof.
  revert g. induction rest as [|a rest IH]; intros g; [left; reflexivity|].
  right. rewrite last_cons. apply IH.
Qed.

Lemma py_last_in (groups : list string) :
  groups <> [] -> exists g, py_last groups = inr g /\ In g groups.
Proof.
  destruct groups as [|g rest]; [congruence|]. intros _.
  exists (last rest g). split; [reflexivity | apply last_in].
Qed.

Lemma map_snd_combine {A B} (l : list A) (l' : list B) :
  List.length l = List.length l' -> map snd (combine l l') = l'.
Proof.
  revert l'. induction l as [|a l IH]; intros [|b l'] Hl; try discriminate; [reflexivity|].
  cbn. f_equal. apply IH. simpl in Hl. lia.
Qed.

Lemma nth_error_combine_fst {A B} (l : list A) (l' : list B) i a b :
  nth_error (combine l l') i = Some (a, b) -> nth_error l i = Some a /\ nth_error l' i = Some b.
Proof.
  revert l' i. induction l as [|x l IH]; intros [|y l'] [|i] Hn; try discriminate.
  - inversion Hn; subst. split; reflexivity.
  - cbn in *. apply IH. exact Hn.
Qed.

Lemma firstn_map_snd_combine {A B} (l : list A) (l' : list B) (j : nat) :
  (j <= List.length (combine l l'))%nat ->
  firstn j (map snd (combine l l')) = firstn j l'.
Proof.
  revert l' j. induction l as [|a l IH]; intros [|b l'] [|j] Hj;
    try reflexivity; cbn [combine List.length] in Hj; try lia.
  cbn [combine map snd firstn]. f_equal. apply IH. lia.
Qed.


Section Pick.
Context {F : Type} `{Number F}.

Lemma pick_total (bucket : F) (groups : list string) (ws : list F) :
  groups <> [] -> exists g, pick bucket groups ws = inr g /\ In g groups.
Proof.
  intros Hne. unfold pick.
  destruct (scan bucket num_zero (combine groups ws)) as [g|] eqn:Hs.
  - exists g. split; [reflexivity|].
    apply scan_in in Hs. apply in_map_iff in Hs. destruct Hs as ([g' w] & Hg & Hin).
    simpl in Hg; subst g'. apply in_combine_l in Hin. exact Hin.
  - apply py_last_in. exact Hne.
Qed.


End Pick.

Lemma bound_nonneg (ws : list Float.float) :
  Forall nonneg ws -> forall j, nonneg (bound ws j).
Proof.
  intros Hws j. apply fold_add_nonneg; [reflexivity | apply Forall_firstn_weights, Hws].
Qed.

Lemma bound_all (ws : list Float.float) : bound ws (List.length ws) = py_sum ws.
Proof. unfold bound, cum, py_sum. rewrite firstn_all. reflexivity. Qed.

Lemma Qltb_lt (x y : Q) : Qltb x y = true <-> (x < y)%Q.
Proof.
  unfold Qltb. rewrite negb_true_iff. split.
  - intros H. apply Qnot_le_lt. intros Hle. apply Qle_bool_iff in Hle. congruence.
  - intros H. destruct (Qle_bool y x) eqn:E; [|reflexivity].
    apply Qle_bool_iff in E. exfalso. exact (Qlt_not_le _ _ H E).
Qed.

Lemma Qltb_ge (x y : Q) : Qltb x y = false <-> (y <= x)%Q.
Proof.
  unfold Qltb. rewrite negb_false_iff. apply Qle_bool_iff.
Qed.


(** * [get_group] as a whole *)

(** ** Returned values do not depend on the trace *)

Lemma stateless_ret {A} (x : A) : stateless (ret x).
Proof. intros t. reflexivity. Qed.

Lemma stateless_raise {A} (e : exn) : stateless (@raise A e).
Proof. intros t. reflexivity. Qed.

Lemma stateless_lift {A} (r : exn + A) : stateless (lift r).
Proof. intros t. reflexivity. Qed.

Lemma stateless_bind {A B} (c : M A) (k : A -> M B) :
  stateless c -> (forall x, stateless (k x)) -> stateless (bind c k).
Proof.
  intros Hc Hk t. specialize (Hc t). unfold result, bind in *.
  destruct (c t) as [[e|x] t'], (c []) as [[e0|x0] t0]; cbn [fst] in *; try congruence.
  inversion Hc; subst x0.
  transitivity (result (k x) []); [apply Hk | symmetry; apply Hk].
Qed.

Lemma stateless_py_truediv a b : stateless (py_truediv a b).
Proof.
  unfold py_truediv. destruct (Z.eqb b 0); [apply stateless_raise|].
  destruct (Float.int_truediv a b);
    first [apply stateless_ret | apply stateless_raise].
Qed.

Lemma stateless_hash_to_float self v : stateless (_hash_to_float self v).
Proof. intros t. unfold result. rewrite !hash_to_float_run. reflexivity. Qed.


Create HintDb stateless.
#[local] Hint Resolve stateless_ret stateless_raise stateless_lift
  stateless_py_truediv stateless_hash_to_float : stateless.

Lemma stateless_get_group self user_id groups weights :
  stateless (get_group self user_id groups weights).
Proof.
  unfold get_group. apply stateless_bind.
  - destruct weights; [auto with stateless|].
    apply stateless_bind; auto with stateless.
  - intros ws. destruct (negb _); [auto with stateless|].
    apply stateless_bind; auto with stateless.
Qed.


(** ** Validation, then one hash, then the loop *)

Lemma get_group_run self user_id groups ws t :
  get_group self user_id groups (Some ws) t =
  if np_isclose (py_sum ws) Float.one
  then (pick (bucket_of self user_id) (effective_groups groups) ws,
        (t ++ [encode (combined self user_id)])%list)
  else (inl ValueError, t).
Proof.
  unfold get_group, bind, ret, raise, lift.
  destruct (np_isclose (py_sum ws) Float.one); cbn [negb].
  - rewrite hash_to_float_run. destruct groups; reflexivity.
  - reflexivity.
Qed.

Lemma get_group_ValueError_iff self user_id groups ws t :
  result (get_group self user_id groups (Some ws)) t = inl ValueError <->
  np_isclose (py_sum ws) Float.one = false.
Proof.
  unfold result. rewrite get_group_run.
  destruct (np_isclose (py_sum ws) Float.one); cbn [fst]; split; try reflexivity; try discriminate.
  intros H. exfalso. exact (pick_not_ValueError _ _ _ H).
Qed.

Lemma get_group_rejected self user_id groups ws t :
  np_isclose (py_sum ws) Float.one = false ->
  get_group self user_id groups (Some ws) t = (inl ValueError, t).
Proof. intros H. rewrite get_group_run, H. reflexivity. Qed.

Lemma exceeds_tolerance_not_close (s : Float.float) :
  exceeds_tolerance s -> np_isclose s Float.one = false.
Proof.
  unfold exceeds_tolerance, np_isclose. fold tolerance. intros H.
  rewrite (ltb_true_leb_false _ _ H). cbn [andb orb].
  destruct (Float.eqb s Float.one) eqn:E; [|reflexivity].
  apply eqb_one in E. subst s. vm_compute in H. discriminate H.
Qed.


(** ** The hash input *)

Lemma append_inj_same_length (s1 s2 x y : string) :
  String.length s1 = String.length s2 -> s1 ++ x = s2 ++ y -> s1 = s2 /\ x = y.
Proof.
  revert s2. induction s1 as [|c s1 IH]; intros [|d s2] Hl He; try discriminate.
  - split; [reflexivity | exact He].
  - cbn in Hl, He. inversion He; subst d.
    destruct (IH s2 ltac:(lia) H1) as [-> ->]. split; reflexivity.
Qed.

Lemma append_sep_inj (s1 s2 x y : string) :
  has_underscore s1 = false -> has_underscore s2 = false ->
  s1 ++ String "_" x = s2 ++ String "_" y -> s1 = s2 /\ x = y.
Proof.
  revert s2. induction s1 as [|c s1 IH]; intros [|d s2] H1 H2 He; cbn in *.
  - inversion He. split; reflexivity.
  - inversion He; subst d. rewrite Ascii.eqb_refl in H2. discriminate.
  - inversion He; subst c. rewrite Ascii.eqb_refl in H1. discriminate.
  - inversion He; subst d.
    apply orb_false_iff in H1, H2.
    destruct (IH s2 (proj2 H1) (proj2 H2) H3) as [-> ->]. split; reflexivity.
Qed.

(** * The properties of the assignment engine *)

(** ** C1: what the uniform deriver returns *)

(** The claim read over the reals fails: the quotient of the digest prefix
    by [2 ^ 64] usually needs more than 53 bits, and the float returned
    for salt ["exp1"] and identifier [1] is not that quotient. *)
Lemma hash_to_float_not_exact :
  exists f q,
    result (_hash_to_float {| salt := "exp1" |} (PyInt 1)) [] = inr f /\
    Float.to_Q f = Some q /\
    ~ (q == digest_prefix {| salt := "exp1" |} (PyInt 1) # 2 ^ 64)%Q.
Proof.
  eexists. eexists. split; [vm_compute; reflexivity|].
  split; [vm_compute; reflexivity|].
  intros H. vm_compute in H. discriminate H.
Qed.

(** C1, as amended.  For every salt and identifier, with [n] the first
    eight bytes of the SHA-256 digest of [salt + "_" + str(identifier)]
    read as a big-endian integer, [_hash_to_float] hashes that one message
    and returns the binary64 number [round53 n / 2 ^ 64]: the quotient
    [n / 2 ^ 64] rounded to 53 significant bits, ties to even.  The
    returned value is within [2 ^ -54] of the quotient, lies in [[0, 1]],
    equals the quotient when [n < 2 ^ 53], and is below [1] when
    [n < 2 ^ 64 - 1024]. *)
Theorem hash_to_float_rounded (self : ABSplitter) (v : value) (t : trace) :
  let n := digest_prefix self v in
  exists f q,
    _hash_to_float self v t = (inr f, (t ++ [encode (combined self v)])%list) /\
    Float.to_Q f = Some q /\
    (q == Float.round53 n # 2 ^ 64)%Q /\
    (Qabs (q - (n # 2 ^ 64)) <= 1 # 2 ^ 54)%Q /\
    (0 <= q <= 1)%Q /\
    (n < 2 ^ 53 -> (q == n # 2 ^ 64)%Q) /\
    (n < 2 ^ 64 - 1024 -> (q < 1)%Q).
Proof.
  cbv zeta.
  destruct (int_truediv_pow64_facts _ (digest_prefix_bound self v)) as (q & Hq & H).
  exists (Float.int_truediv (digest_prefix self v) (2 ^ 64)), q.
  split; [apply hash_to_float_run|]. split; [exact Hq | exact H].
Qed.

Lemma hash_to_float_rounded_witness :
  exists f q,
    _hash_to_float {| salt := "exp1" |} (PyInt 1) [] =
      (inr f, [encode "exp1_1"]) /\
    Float.to_Q f = Some q /\
    (q < 1)%Q.
Proof.
  destruct (hash_to_float_rounded {| salt := "exp1" |} (PyInt 1) [])
    as (f & q & Hrun & Hq & _ & _ & _ & _ & Hlt).
  exists f, q. split; [exact Hrun|]. split; [exact Hq|].
  apply Hlt. vm_compute. reflexivity.
Defined.

(** The top 1024 prefixes round up to [1.0], outside [[0, 1)]. *)
Example int_truediv_top :
  Float.int_truediv (2 ^ 64 - 1) (2 ^ 64) = Float.one /\
  Float.int_truediv (2 ^ 64 - 1024) (2 ^ 64) = Float.one /\
  Float.ltb (Float.int_truediv (2 ^ 64 - 1025) (2 ^ 64)) Float.one = true.
Proof. vm_compute. repeat split. Qed.

(** ** C2: the interval of the returned group *)

Lemma nth_error_last (g0 : string) (rest : list string) :
  nth_error (g0 :: rest) (List.length rest) = Some (last rest g0).
Proof.
  revert g0. induction rest as [|a rest IH]; intros g0; [reflexivity|].
  cbn [List.length nth_error]. rewrite IH. f_equal.
  symmetry. apply last_cons.
Qed.

(** Ten groups with weights [[0.1] * 10], which pass the validation, and
    the sample [1 - 2 ^ -53]: the sample is below no boundary, so it lies
    in the interval of no group, and the last group is returned. *)
Lemma pick_interval_fallback :
  List.length ten_groups = List.length tenths /\
  Forall nonneg tenths /\
  np_isclose (py_sum tenths) Float.one = true /\
  Float.leb Float.zero below_one = true /\
  Float.ltb below_one Float.one = true /\
  pick below_one ten_groups tenths = inr "j" /\
  (forall i, (i < 10)%nat ->
             Float.ltb below_one (bound tenths (S i)) = false).
Proof.
  split; [reflexivity|]. split; [repeat constructor|].
  split; [vm_compute; reflexivity|]. split; [reflexivity|].
  split; [reflexivity|]. split; [vm_compute; reflexivity|].
  intros i Hi.
  do 10 (destruct i as [|i]; [vm_compute; reflexivity|]). lia.
Qed.

(** C2, as amended.  For group names and weights of equal length, with
    non-negative weights that pass the validation of [get_group], and for
    a sample in [[0, 1)], the loop returns the group at an index [i] with
    [b_i <= sample], indices from zero and [b_0 = 0].  Either [i] is the
    first index whose boundary exceeds the sample, so that
    [b_i <= sample < b_(i+1)]; or the sample is at or above every
    boundary and [i] is the last index.  When the last boundary is exactly
    [1.0] the first case holds.  With weights [[0.5, 0.5]] the sample
    [0.5] gets the second group and the sample [0.0] the first. *)
Theorem pick_interval :
  (forall (groups : list string) (ws : list Float.float) (sample : Float.float),
     List.length groups = List.length ws ->
     Forall nonneg ws ->
     np_isclose (py_sum ws) Float.one = true ->
     Float.leb Float.zero sample = true ->
     Float.ltb sample Float.one = true ->
     exists i g,
       nth_error groups i = Some g /\
       pick sample groups ws = inr g /\
       Float.leb (bound ws i) sample = true /\
       ((Float.ltb sample (bound ws (S i)) = true /\
         forall j, (j < i)%nat -> Float.ltb sample (bound ws (S j)) = false) \/
        (S i = List.length ws /\
         forall j, (j < List.length ws)%nat ->
                   Float.leb (bound ws (S j)) sample = true)) /\
       (Float.eqb (bound ws (List.length ws)) Float.one = true ->
        Float.ltb sample (bound ws (S i)) = true)) /\
  (forall g1 g2 : string,
     pick half [g1; g2] [half; half] = inr g2 /\
     pick Float.zero [g1; g2] [half; half] = inr g1).
Proof.
  split; [|intros g1 g2; split; reflexivity].
  intros groups ws sample Hlen Hnn Hc Hlo Hhi.
  assert (Hsn : Float.is_nan sample = false) by apply (leb_not_nan_r _ _ Hlo).
  assert (Hbn : forall j, Float.is_nan (bound ws j) = false)
    by (intros j; apply nonneg_not_nan, bound_nonneg, Hnn).
  assert (Hpos : (0 < List.length ws)%nat).
  { destruct ws; [|simpl; lia]. vm_compute in Hc. discriminate Hc. }
  unfold pick.
  destruct (scan sample num_zero (combine groups ws)) as [g|] eqn:Hs.
  - destruct (scan_some _ _ _ _ Hs) as (i & w & Hn & Hlt & Hfirst).
    rewrite (map_snd_combine _ _ Hlen) in Hlt, Hfirst.
    destruct (nth_error_combine_fst _ _ _ _ _ Hn) as [Hg Hw].
    exists i, g. split; [exact Hg|]. split; [reflexivity|].
    split; [|split; [left; split; [exact Hlt | exact Hfirst] | intros _; exact Hlt]].
    destruct i as [|i]; [exact Hlo|].
    apply ltb_false_leb; [exact Hsn | apply Hbn | apply Hfirst; lia].
  - pose proof (proj1 (scan_none _ _ _) Hs) as Hall.
    rewrite (map_snd_combine _ _ Hlen), length_combine, Hlen, Nat.min_id in Hall.
    destruct groups as [|g0 rest]; [simpl in Hlen; lia|].
    cbn [List.length] in Hlen.
    assert (Hge : forall j, (j < List.length ws)%nat ->
                            Float.leb (bound ws (S j)) sample = true).
    { intros j Hj. apply ltb_false_leb; [exact Hsn | apply Hbn | apply Hall, Hj]. }
    exists (List.length rest), (last rest g0).
    split; [apply nth_error_last|]. split; [reflexivity|]. split; [|split].
    + destruct (List.length rest) as [|k] eqn:Ek; [exact Hlo|].
      apply Hge. lia.
    + right. split; [lia | exact Hge].
    + intros Hone. exfalso. apply eqb_one in Hone.
      specialize (Hall (List.length ws - 1)%nat ltac:(lia)).
      replace (S (List.length ws - 1)) with (List.length ws) in Hall by lia.
      change (cum num_zero ws (List.length ws)) with (bound ws (List.length ws)) in Hall.
      rewrite Hone in Hall.
      change (num_ltb sample Float.one) with (Float.ltb sample Float.one) in Hall.
      congruence.
Qed.

Lemma pick_interval_witness :
  exists i g,
    nth_error ["control"; "test"] i = Some g /\
    pick (Float.lit 3 4) ["control"; "test"] [half; half] = inr g /\
    Float.leb (bound [half; half] i) (Float.lit 3 4) = true /\
    ((Float.ltb (Float.lit 3 4) (bound [half; half] (S i)) = true /\
      forall j, (j < i)%nat ->
                Float.ltb (Float.lit 3 4) (bound [half; half] (S j)) = false) \/
     (S i = List.length [half; half] /\
      forall j, (j < List.length [half; half])%nat ->
                Float.leb (bound [half; half] (S j)) (Float.lit 3 4) = true)) /\
    (Float.eqb (bound [half; half] (List.length [half; half])) Float.one = true ->
     Float.ltb (Float.lit 3 4) (bound [half; half] (S i)) = true).
Proof.
  apply (proj1 pick_interval ["control"; "test"] [half; half] (Float.lit 3 4)).
  - reflexivity.
  - repeat constructor.
  - vm_compute. reflexivity.
  - vm_compute. reflexivity.
  - vm_compute. reflexivity.
Defined.

(** ** C3: totality *)

(** C3.  For a non-empty list of groups and weights that pass the
    validation of [get_group], every sample is given exactly one group,
    one of the given names, and no exception is raised; when the sample is
    at or above every boundary the loop computes, that group is the last
    one.  So [get_group] returns one of the given names for every salt and
    identifier. *)
Theorem assignment_total (groups : list string) (ws : list Float.float) :
  groups <> [] -> np_isclose (py_sum ws) Float.one = true ->
  (forall sample : Float.float,
     exists g, pick sample groups ws = inr g /\ In g groups /\
       ((forall j, (j < List.length (combine groups ws))%nat ->
                   Float.leb (bound ws (S j)) sample = true) ->
        py_last groups = inr g)) /\
  (forall self user_id t,
     exists g, result (get_group self user_id (Some groups) (Some ws)) t = inr g /\
               In g groups).
Proof.
  intros Hne Hc. split.
  - intros sample. destruct (pick_total sample groups ws Hne) as (g & Hg & Hin).
    exists g. split; [exact Hg|]. split; [exact Hin|].
    intros Hall. unfold pick in Hg.
    assert (Hs : scan sample num_zero (combine groups ws) = None).
    { apply scan_none. intros j Hj.
      assert (Eb : cum num_zero (map snd (combine groups ws)) (S j) = bound ws (S j)).
      { unfold bound, cum. rewrite firstn_map_snd_combine by lia. reflexivity. }
      rewrite Eb. apply leb_true_ltb_false. apply Hall. exact Hj. }
    rewrite Hs in Hg. exact Hg.
  - intros self user_id t. unfold result. rewrite get_group_run, Hc.
    cbn [fst effective_groups]. apply pick_total. exact Hne.
Qed.

Lemma assignment_total_witness :
  ["a"; "b"] <> [] /\
  np_isclose (py_sum [half; half]) Float.one = true /\
  exists g,
    result (get_group {| salt := "exp1" |} (PyInt 1) (Some ["a"; "b"])
                      (Some [half; half])) [] = inr g /\
    In g ["a"; "b"].
Proof.
  assert (Hne : ["a"; "b"] <> []) by discriminate.
  assert (Hc : np_isclose (py_sum [half; half]) Float.one = true)
    by (vm_compute; reflexivity).
  split; [exact Hne|]. split; [exact Hc|].
  exact (proj2 (assignment_total ["a"; "b"] [half; half] Hne Hc)
               {| salt := "exp1" |} (PyInt 1) []).
Defined.

(** ** C4: negative weights *)

(** The weights [[1.5, -0.5]] hold a negative entry and sum to [1.0];
    [get_group] accepts them and assigns a group. *)
Lemma negative_weight_accepted :
  has_negative [Float.lit 3 2; Float.lit (-1) 2] /\
  result (get_group {| salt := "exp1" |} (PyInt 1) (Some ["control"; "test"])
                    (Some [Float.lit 3 2; Float.lit (-1) 2])) [] = inr "control".
Proof.
  split.
  - exists (Float.lit (-1) 2).
    split; [right; left; reflexivity | vm_compute; reflexivity].
  - vm_compute. reflexivity.
Qed.

(** C4, as amended.  [get_group] never looks at the sign of a weight: a
    list of weights with a negative entry is rejected with [ValueError]
    exactly when its sum is not close to [1.0] in the sense of
    [np.isclose]. *)
Theorem negative_weight_rejected_iff self user_id groups ws (t : trace) :
  has_negative ws ->
  (result (get_group self user_id groups (Some ws)) t = inl ValueError <->
   np_isclose (py_sum ws) Float.one = false).
Proof. intros _. apply get_group_ValueError_iff. Qed.

Lemma negative_weight_rejected_iff_witness :
  has_negative [Float.lit 7 10; Float.lit (-1) 10] /\
  result (get_group {| salt := "exp1" |} (PyInt 1) None
                    (Some [Float.lit 7 10; Float.lit (-1) 10])) [] = inl ValueError.
Proof.
  assert (Hneg : has_negative [Float.lit 7 10; Float.lit (-1) 10]).
  { exists (Float.lit (-1) 10).
    split; [right; left; reflexivity | vm_compute; reflexivity]. }
  split; [exact Hneg|].
  apply (proj2 (negative_weight_rejected_iff {| salt := "exp1" |} (PyInt 1) None
                  [Float.lit 7 10; Float.lit (-1) 10] [] Hneg)).
  vm_compute. reflexivity.
Defined.

(** ** C5: lists of different lengths *)

(** Two names with the three weights [[0.5, 0.25, 0.25]]: the weights sum
    to [1.0] and [get_group] assigns a group. *)
Lemma length_mismatch_accepted :
  List.length ["a"; "b"]
    <> List.length [Float.lit 1 2; Float.lit 1 4; Float.lit 1 4] /\
  result (get_group {| salt := "exp1" |} (PyInt 1) (Some ["a"; "b"])
                    (Some [Float.lit 1 2; Float.lit 1 4; Float.lit 1 4])) []
    = inr "a".
Proof. split; [discriminate | vm_compute; reflexivity]. Qed.

(** C5, as amended.  [get_group] does not compare the lengths of the two
    lists.  When they differ it raises [ValueError] exactly when the sum
    of the weights is not close to [1.0]; when the sum is close to [1.0]
    and there is at least one name, it returns one of the names, pairing
    names and weights up to the shorter list.  The weights
    [[0.5, 0.5, 0.5]] with two names are rejected, their sum being
    [1.5], before anything is hashed. *)
Theorem length_mismatch_rejected_iff self user_id groups ws (t : trace) :
  List.length groups <> List.length ws ->
  (result (get_group self user_id (Some groups) (Some ws)) t = inl ValueError <->
   np_isclose (py_sum ws) Float.one = false) /\
  (np_isclose (py_sum ws) Float.one = true -> groups <> [] ->
   exists g,
     result (get_group self user_id (Some groups) (Some ws)) t = inr g /\
     In g groups) /\
  (forall g1 g2,
     get_group self user_id (Some [g1; g2]) (Some [half; half; half]) t
     = (inl ValueError, t)).
Proof.
  intros _. split; [apply get_group_ValueError_iff|]. split.
  - intros Hc Hne. unfold result. rewrite get_group_run, Hc.
    cbn [fst effective_groups]. apply pick_total. exact Hne.
  - intros g1 g2. apply get_group_rejected. vm_compute. reflexivity.
Qed.

Lemma length_mismatch_rejected_iff_witness :
  List.length ["a"; "b"] <> List.length [half; half; half] /\
  result (get_group {| salt := "exp1" |} (PyInt 1) (Some ["a"; "b"])
                    (Some [half; half; half])) [] = inl ValueError.
Proof.
  assert (Hl : List.length ["a"; "b"] <> List.length [half; half; half])
    by discriminate.
  split; [exact Hl|].
  apply (proj2 (proj1 (length_mismatch_rejected_iff {| salt := "exp1" |} (PyInt 1)
                         ["a"; "b"] [half; half; half] [] Hl))).
  vm_compute. reflexivity.
Defined.

(** ** C6: the sum of the weights is checked first *)

(** C6.  When the sum of the weights is further from [1.0] than the
    tolerance of [np.isclose], [get_group] raises [ValueError] and the
    trace of hashed messages is left as it was: the check runs before the
    identifier is hashed.  The weights [[0.3, 0.3]] are such a list. *)
Theorem get_group_rejects_bad_sum self user_id groups ws (t : trace) :
  exceeds_tolerance (py_sum ws) ->
  get_group self user_id groups (Some ws) t = (inl ValueError, t).
Proof.
  intros H. apply get_group_rejected, exceeds_tolerance_not_close, H.
Qed.

Lemma get_group_rejects_bad_sum_witness :
  exceeds_tolerance (py_sum [Float.lit 3 10; Float.lit 3 10]) /\
  get_group {| salt := "exp1" |} (PyInt 1) None
            (Some [Float.lit 3 10; Float.lit 3 10]) [] = (inl ValueError, []).
Proof.
  split.
  - vm_compute. reflexivity.
  - apply (get_group_rejects_bad_sum {| salt := "exp1" |} (PyInt 1) None
             [Float.lit 3 10; Float.lit 3 10] []).
    vm_compute. reflexivity.
Defined.

(** ** C7: the separator *)

(** Salt ["a_b"] with identifier ["c"] and salt ["a"] with identifier
    ["b_c"] are different pairs with the same hash input. *)
Lemma combined_collision :
  ("a_b", "c") <> ("a", "b_c") /\
  combined {| salt := "a_b" |} (PyStr "c")
    = combined {| salt := "a" |} (PyStr "b_c").
Proof. split; [discriminate | reflexivity]. Qed.

(** C7, as amended.  When neither salt contains the separator ["_"], or
    when the two salts have the same length, equal hash inputs come from
    equal salts and identifiers with equal string forms. *)
Theorem combined_injective (self1 self2 : ABSplitter) (v1 v2 : value) :
  (has_underscore (salt self1) = false /\ has_underscore (salt self2) = false) \/
  String.length (salt self1) = String.length (salt self2) ->
  combined self1 v1 = combined self2 v2 ->
  salt self1 = salt self2 /\ format_value v1 = format_value v2.
Proof.
  unfold combined. intros [[H1 H2]|Hl] He.
  - exact (append_sep_inj _ _ _ _ H1 H2 He).
  - destruct (append_inj_same_length _ _ _ _ Hl He) as [Hs Hr].
    split; [exact Hs|]. inversion Hr. reflexivity.
Qed.

Lemma combined_injective_witness :
  salt {| salt := "exp1" |} = salt {| salt := "exp1" |} /\
  format_value (PyInt 7) = format_value (PyStr "7").
Proof.
  apply (combined_injective {| salt := "exp1" |} {| salt := "exp1" |}
           (PyInt 7) (PyStr "7")).
  - left. split; reflexivity.
  - reflexivity.
Defined.

(** ** C9: identifiers are hashed through their string form *)

(** The string [str] gives for an integer reads back, in base ten, as
    that integer. *)
Lemma decimal_reads_back (n : Z) :
  option_map Z.of_int
    (NilZero.int_of_string (NilZero.string_of_int (Z.to_int n))) = Some n.
Proof.
  rewrite NilZero.isi.
  - cbn [option_map]. f_equal. apply DecimalZ.of_to.
  - intros E. pose proof (f_equal Z.of_int E) as E'.
    rewrite DecimalZ.of_to in E'. cbn in E'. subst n. discriminate E.
  - intros E. pose proof (f_equal Z.of_int E) as E'.
    rewrite DecimalZ.of_to in E'. cbn in E'. subst n. discriminate E.
Qed.

(** [get_group] on an integer: the weights are checked first, then the
    integer is rendered, then the rendering is hashed behind the salt. *)
Lemma get_group_int_run self (n : Z) groups ws (t : trace) :
  get_group_int self n groups (Some ws) t =
  if np_isclose (py_sum ws) Float.one
  then match py_str_int n with
       | inl e => (inl e, t)
       | inr s =>
           (pick (bucket_of self (PyStr s)) (effective_groups groups) ws,
            (t ++ [encode (salt self ++ "_" ++ s)])%list)
       end
  else (inl ValueError, t).
Proof.
  unfold get_group_int, bind, ret, raise, lift, _hash_to_float_int.
  destruct (np_isclose (py_sum ws) Float.one); cbn [negb]; [|reflexivity].
  unfold py_str_int.
  destruct (Z.ltb (Z.abs n) (10 ^ int_max_str_digits)); [|reflexivity].
  rewrite hash_to_float_run. destruct groups; reflexivity.
Qed.

Lemma get_group_int_rendered self (n : Z) groups weights (t : trace) :
  Z.abs n < 10 ^ int_max_str_digits ->
  get_group_int self n groups weights t =
  get_group self (PyInt n) groups weights t.
Proof.
  intros Hn. apply Z.ltb_lt in Hn.
  unfold get_group_int, get_group, _hash_to_float_int, py_str_int.
  rewrite Hn. reflexivity.
Qed.

(** The integer [10 ** 4300] has 4301 digits: [get_group] raises
    [ValueError] when it renders it, while on the string of its digits
    [get_group] returns a group. *)
Lemma get_group_int_unrendered :
  result (get_group_int {| salt := "exp1" |} (10 ^ 4300)
            (Some ["control"; "test"]) (Some [half; half])) []
    = inl ValueError /\
  exists g,
    result (get_group {| salt := "exp1" |}
              (PyStr (NilZero.string_of_int (Z.to_int (10 ^ 4300))))
              (Some ["control"; "test"]) (Some [half; half])) []
      = inr g.
Proof.
  assert (Hc : np_isclose (py_sum [half; half]) Float.one = true)
    by (vm_compute; reflexivity).
  split.
  - unfold result. rewrite get_group_int_run, Hc.
    replace (py_str_int (10 ^ 4300)) with (@inl exn string ValueError);
      [reflexivity|].
    unfold py_str_int.
    replace (Z.ltb (Z.abs (10 ^ 4300)) (10 ^ int_max_str_digits)) with false
      by (vm_compute; reflexivity).
    reflexivity.
  - unfold result. rewrite get_group_run, Hc. cbn [fst effective_groups].
    destruct (pick_total
                (bucket_of {| salt := "exp1" |}
                   (PyStr (NilZero.string_of_int (Z.to_int (10 ^ 4300)))))
                ["control"; "test"] [half; half] ltac:(discriminate))
      as (g & Hg & _).
    exists g. exact Hg.
Qed.

(** C9, as amended.  For every integer [n] that [str] renders, those of at
    most 4300 decimal digits, [str(n)] is a string that reads back as [n]
    in base ten, [get_group] called with [n] does what [get_group] called
    with that string does, and when the weights pass the validation the
    one message it hashes is [salt + "_" + str(n)]. *)
Theorem get_group_int_as_str self (n : Z) groups weights (t : trace) :
  Z.abs n < 10 ^ int_max_str_digits ->
  exists s,
    py_str_int n = inr s /\
    option_map Z.of_int (NilZero.int_of_string s) = Some n /\
    get_group_int self n groups weights t =
      get_group self (PyStr s) groups weights t /\
    (forall ws, weights = Some ws ->
       np_isclose (py_sum ws) Float.one = true ->
       snd (get_group_int self n groups weights t)
       = (t ++ [encode (salt self ++ "_" ++ s)])%list).
Proof.
  intros Hn. exists (NilZero.string_of_int (Z.to_int n)).
  assert (Hs : py_str_int n = inr (NilZero.string_of_int (Z.to_int n))).
  { unfold py_str_int. rewrite (proj2 (Z.ltb_lt _ _) Hn). reflexivity. }
  split; [exact Hs|]. split; [apply decimal_reads_back|]. split.
  - rewrite (get_group_int_rendered _ _ _ _ _ Hn). reflexivity.
  - intros ws -> Hc. rewrite get_group_int_run, Hc, Hs. reflexivity.
Qed.

Lemma get_group_int_as_str_witness :
  exists s,
    py_str_int 12345 = inr s /\
    option_map Z.of_int (NilZero.int_of_string s) = Some 12345 /\
    get_group_int {| salt := "exp1" |} 12345 None (Some [half; half]) [] =
      get_group {| salt := "exp1" |} (PyStr s) None (Some [half; half]) [] /\
    (forall ws, Some [half; half] = Some ws ->
       np_isclose (py_sum ws) Float.one = true ->
       snd (get_group_int {| salt := "exp1" |} 12345 None (Some [half; half]) [])
       = ([] ++ [encode (salt {| salt := "exp1" |} ++ "_" ++ s)])%list).
Proof.
  apply (get_group_int_as_str {| salt := "exp1" |} 12345 None (Some [half; half]) []).
  vm_compute. reflexivity.
Defined.

(** ** C10: groups of weight zero, in exact arithmetic *)

(** C10.  Run on rationals, with names and weights of equal length,
    weights that are non-negative and sum to [1], and a sample in
    [[0, 1)], the loop returns the name at an index whose weight is
    strictly positive. *)
Theorem pick_exact_positive_weight (groups : list string) (ws : list Q) (sample : Q) :
  List.length groups = List.length ws ->
  Forall (fun w => (0 <= w)%Q) ws ->
  (fold_left Qplus ws (0 # 1) == 1)%Q ->
  (0 <= sample)%Q -> (sample < 1)%Q ->
  exists i g w,
    pick sample groups ws = inr g /\
    nth_error groups i = Some g /\
    nth_error ws i = Some w /\
    (0 < w)%Q.
Proof.
  intros Hlen Hnn Hsum Hlo Hhi. unfold pick.
  destruct (scan sample num_zero (combine groups ws)) as [g|] eqn:Hs.
  - destruct (scan_some _ _ _ _ Hs) as (i & w & Hn & Hlt & Hfirst).
    rewrite (map_snd_combine _ _ Hlen) in Hlt, Hfirst.
    destruct (nth_error_combine_fst _ _ _ _ _ Hn) as [Hg Hw].
    exists i, g, w. repeat split; try assumption.
    rewrite (cum_step _ _ _ _ Hw) in Hlt.
    apply Qltb_lt in Hlt. cbn [num_add Q_Number] in Hlt.
    assert (Hb : (cum num_zero ws i <= sample)%Q).
    { destruct i as [|i]; [exact Hlo|]. apply Qltb_ge. apply Hfirst. lia. }
    apply (Qplus_lt_r _ _ (cum num_zero ws i)). rewrite Qplus_0_r.
    eapply Qle_lt_trans; [exact Hb | exact Hlt].
  - exfalso.
    pose proof (proj1 (scan_none _ _ _) Hs) as Hall.
    rewrite (map_snd_combine _ _ Hlen) in Hall.
    assert (Hpos : (0 < List.length ws)%nat).
    { destruct ws; [|simpl; lia]. cbn in Hsum. discriminate Hsum. }
    specialize (Hall (List.length ws - 1)%nat).
    rewrite length_combine, Hlen, Nat.min_id in Hall.
    specialize (Hall ltac:(lia)).
    replace (S (List.length ws - 1)) with (List.length ws) in Hall by lia.
    apply Qltb_ge in Hall. unfold cum in Hall. rewrite firstn_all in Hall.
    cbn [num_add num_zero Q_Number] in Hall. rewrite Hsum in Hall.
    exact (Qlt_not_le _ _ Hhi Hall).
Qed.

Lemma pick_exact_positive_weight_witness :
  exists i g w,
    pick (1 # 2)%Q ["a"; "b"; "c"] [(1 # 2)%Q; (0 # 1)%Q; (1 # 2)%Q] = inr g /\
    nth_error ["a"; "b"; "c"] i = Some g /\
    nth_error [(1 # 2)%Q; (0 # 1)%Q; (1 # 2)%Q] i = Some w /\
    (0 < w)%Q.
Proof.
  apply (pick_exact_positive_weight ["a"; "b"; "c"]
           [(1 # 2)%Q; (0 # 1)%Q; (1 # 2)%Q] (1 # 2)%Q).
  - reflexivity.
  - repeat constructor; discriminate.
  - reflexivity.
  - discriminate.
  - reflexivity.
Defined.

(** * Further properties of the code *)

(** ** The bucket against [0.5] and [1.0] *)

Lemma round53_multiple_bound (n : Z) :
  2 ^ 53 <= n < 2 ^ 64 ->
  let k := Z.log2 n - 52 in
  1 <= k <= 11 /\ 2 ^ (k + 52) <= n < 2 ^ (k + 53) /\
  Float.round53 n = Float.rne n k * 2 ^ k.
Proof.
  intros Hn k.
  assert (Hl : 53 <= Z.log2 n < 64).
  { split; [apply Z.log2_le_pow2; lia | apply Z.log2_lt_pow2; lia]. }
  pose proof (log2_digits_bounds n ltac:(lia)) as Hb.
  split; [subst k; lia|]. split.
  - subst k. replace (Z.log2 n - 52 + 52) with (Z.log2 n) by lia.
    replace (Z.log2 n - 52 + 53) with (Z.log2 n + 1) by lia. exact Hb.
  - unfold Float.round53. fold k. replace (Z.max 0 k) with k by (subst k; lia).
    reflexivity.
Qed.

(** Rounding to 53 bits reaches [2 ^ 63] from [2 ^ 63 - 512] on. *)
Lemma round53_below_half (n : Z) :
  0 <= n < 2 ^ 64 -> (Float.round53 n < 2 ^ 63 <-> n < 2 ^ 63 - 512).
Proof.
  intros Hn. destruct (Z_lt_ge_dec n (2 ^ 53)) as [Hs|Hs].
  { rewrite round53_small by lia. lia. }
  destruct (round53_multiple_bound n ltac:(lia)) as (Hk & Hb & ->).
  set (k := Z.log2 n - 52) in *.
  pose proof (rne_error n k ltac:(lia)) as He.
  assert (HP : 0 < 2 ^ k) by (apply Z.pow_pos_nonneg; lia).
  split.
  - (* the result is a multiple of 2^k below 2^63, so at most 2^63 - 2^k *)
    intros Hr. destruct (Z.eq_dec k 11) as [E|E].
    + rewrite E in *. change (2 ^ (11 + 52)) with (2 ^ 63) in Hb.
      assert (2 ^ 52 <= Float.rne n 11).
      { unfold Float.rne.
        assert (2 ^ 52 <= n / 2 ^ 11) by (apply Z.div_le_lower_bound; lia).
        destruct (Z.compare (2 * (n mod 2 ^ 11)) (2 ^ 11)); [destruct (Z.even _)| |]; lia. }
      change (2 ^ 63) with (2 ^ 52 * 2 ^ 11) in Hr. nia.
    + destruct (Z_lt_ge_dec n (2 ^ 63 - 512)) as [|Hge]; [assumption|exfalso].
      (* n is at least 2^63 - 512, so it has 63 bits and rounds up to 2^63 *)
      assert (Hk' : k = 10).
      { destruct (Z.eq_dec k 10) as [|Ek]; [assumption|exfalso].
        assert (2 ^ (k + 53) <= 2 ^ 62) by (apply Z.pow_le_mono_r; lia). lia. }
      rewrite Hk' in *.
      unfold Float.rne in Hr.
      pose proof (Z.div_mod n (2 ^ 10) ltac:(lia)) as Hdm.
      pose proof (Z.mod_pos_bound n (2 ^ 10) ltac:(lia)) as Hmod.
      change (2 ^ (10 + 53)) with (2 ^ 63) in Hb.
      assert (Hq : n / 2 ^ 10 = 2 ^ 53 - 1).
      { apply Z.le_antisymm.
        - assert (n / 2 ^ 10 < 2 ^ 53) by (apply Z.div_lt_upper_bound; lia). lia.
        - apply Z.div_le_lower_bound; lia. }
      rewrite Hq in *. change (Z.even (2 ^ 53 - 1)) with false in *.
      destruct (Z.compare_spec (2 * (n mod 2 ^ 10)) (2 ^ 10)); lia.
  - intros Hlt.
    assert (Hk10 : k <= 10).
    { destruct (Z_le_gt_dec k 10) as [|Hg]; [assumption|exfalso].
      assert (2 ^ 63 <= 2 ^ (k + 52)) by (apply Z.pow_le_mono_r; lia). lia. }
    assert (2 ^ k <= 1024) by (change 1024 with (2 ^ 10); apply Z.pow_le_mono_r; lia).
    lia.
Qed.

(** The float [n / 2 ** 64] against the float [2 ^ (j - 64)]. *)
Lemma int_truediv_pow64_ltb_pow2 (n j : Z) :
  0 < n < 2 ^ 64 -> 1 <= j <= 64 ->
  (Float.ltb (Float.int_truediv n (2 ^ 64))
             (S754_finite false 4503599627370496 (j - 116)) = true
   <-> Float.round53 n < 2 ^ j).
Proof.
  intros Hn Hj.
  destruct (int_truediv_pow64 n Hn) as (m & e & -> & He & Hm & Hv).
  unfold Float.ltb, SFltb. cbv beta iota delta [SFcompare].
  assert (E117 : forall a, 0 <= a -> 2 ^ (a + 53) = 2 ^ 53 * 2 ^ a).
  { intros a Ha. rewrite Z.pow_add_r by lia. ring. }
  destruct (Z.compare_spec e (j - 116)) as [E|E|E].
  - (* same exponent: the mantissa is at least 2^52 *)
    rewrite Pos.compare_cont_spec.
    destruct (Pos.compare_spec m 4503599627370496) as [Em|Em|Em];
      cbv beta iota delta [Pos.switch_Eq].
    + split; [discriminate|]. intros Hr. exfalso.
      subst e m. replace (j - 116 + 117) with (j + 1) in Hv by lia.
      rewrite Z.pow_add_r in Hv by lia.
      change (Z.pos 4503599627370496) with (2 ^ 52) in Hv. lia.
    + exfalso. apply Pos2Z.pos_lt_pos in Em.
      change (Z.pos 4503599627370496) with (2 ^ 52) in Em. lia.
    + split; [discriminate|]. intros Hr. exfalso.
      subst e. replace (j - 116 + 117) with (j + 1) in Hv by lia.
      rewrite Z.pow_add_r in Hv by lia.
      assert (0 < 2 ^ j) by (apply Z.pow_pos_nonneg; lia). nia.
  - split; [intros _|reflexivity].
    assert (Hle : 2 ^ (e + 117) <= 2 ^ j) by (apply Z.pow_le_mono_r; lia).
    assert (0 < 2 ^ (e + 117)) by (apply Z.pow_pos_nonneg; lia).
    nia.
  - split; [discriminate|]. intros Hr. exfalso.
    assert (Hle : 2 ^ (j + 1) <= 2 ^ (e + 117)) by (apply Z.pow_le_mono_r; lia).
    rewrite Z.pow_add_r in Hle by lia.
    assert (0 < 2 ^ j) by (apply Z.pow_pos_nonneg; lia). nia.
Qed.

Lemma half_repr : half = S754_finite false 4503599627370496 (-53).
Proof. vm_compute. reflexivity. Qed.

(** The bucket is below [0.5] exactly when the prefix is below
    [2 ^ 63 - 512]. *)
Lemma bucket_lt_half (n : Z) :
  0 <= n < 2 ^ 64 ->
  (Float.ltb (Float.int_truediv n (2 ^ 64)) half = true <-> n < 2 ^ 63 - 512).
Proof.
  intros Hn. destruct (Z.eq_dec n 0) as [->|Hz].
  - split; [intros _; reflexivity | intros _; vm_compute; reflexivity].
  - rewrite half_repr. change (-53) with (63 - 116).
    rewrite int_truediv_pow64_ltb_pow2 by lia.
    apply round53_below_half. exact Hn.
Qed.

(** The bucket is below [1.0] exactly when the prefix is below
    [2 ^ 64 - 1024]; from there on it is [1.0]. *)
Lemma bucket_lt_one (n : Z) :
  0 <= n < 2 ^ 64 ->
  (Float.ltb (Float.int_truediv n (2 ^ 64)) Float.one = true <-> n < 2 ^ 64 - 1024).
Proof.
  intros Hn. destruct (Z.eq_dec n 0) as [->|Hz].
  - split; [intros _; reflexivity | intros _; vm_compute; reflexivity].
  - unfold Float.one. change (-52) with (64 - 116).
    rewrite int_truediv_pow64_ltb_pow2 by lia.
    split.
    + intros Hr. destruct (Z_lt_ge_dec n (2 ^ 64 - 1024)) as [|Hge]; [assumption|].
      rewrite round53_top in Hr by lia. lia.
    + intros Hlt. apply round53_lt_one. lia.
Qed.

Lemma bucket_top (n : Z) :
  2 ^ 64 - 1024 <= n < 2 ^ 64 -> Float.int_truediv n (2 ^ 64) = Float.one.
Proof.
  intros Hn.
  destruct (int_truediv_pow64 n ltac:(lia)) as (m & e & -> & He & Hm & Hv).
  rewrite round53_top in Hv by exact Hn.
  assert (Ee : e = -52).
  { destruct (Z.eq_dec e (-52)) as [|Ne]; [assumption|exfalso].
    assert (2 ^ (e + 117) <= 2 ^ 64) by (apply Z.pow_le_mono_r; lia).
    change (2 ^ 64 * 2 ^ 53) with (2 ^ 53 * 2 ^ 64) in Hv. nia. }
  subst e. change (2 ^ (-52 + 117)) with (2 ^ 65) in Hv.
  assert (Em : Z.pos m = 2 ^ 52) by lia.
  unfold Float.one. f_equal.
  apply Pos2Z.inj. rewrite Em. reflexivity.
Qed.

Lemma bucket_nonneg (n : Z) :
  0 <= n < 2 ^ 64 -> nonneg (Float.int_truediv n (2 ^ 64)).
Proof.
  intros Hn. destruct (Z.eq_dec n 0) as [->|Hz]; [reflexivity|].
  destruct (int_truediv_pow64 n ltac:(lia)) as (m & e & -> & _).
  apply nonneg_cases. exact I.
Qed.

(** ** [get_group] beyond valid explicit weights *)

Section PickFacts.
Context {F : Type} `{Number F}.

Lemma pick_two (b : F) (g1 g2 : string) (w1 w2 : F) :
  pick b [g1; g2] [w1; w2] =
  inr (if num_ltb b (num_add num_zero w1) then g1 else g2).
Proof.
  unfold pick. cbn [combine scan].
  destruct (num_ltb b (num_add num_zero w1)); [reflexivity|].
  destruct (num_ltb b (num_add (num_add num_zero w1) w2)); reflexivity.
Qed.

Lemma pick_one (b : F) (g : string) (w : F) : pick b [g] [w] = inr g.
Proof.
  unfold pick. cbn [combine scan].
  destruct (num_ltb b (num_add num_zero w)); reflexivity.
Qed.

Lemma pick_in (b : F) (groups : list string) (ws : list F) (g : string) :
  pick b groups ws = inr g -> In g groups.
Proof.
  destruct groups as [|g0 rest]; [discriminate|].
  intros Hp. destruct (pick_total b (g0 :: rest) ws ltac:(discriminate)) as (g' & Hg' & Hin).
  rewrite Hp in Hg'. inversion Hg'; subst. exact Hin.
Qed.

Lemma pick_empty (b : F) (ws : list F) : pick b [] ws = inl IndexError.
Proof. reflexivity. Qed.

End PickFacts.

Lemma py_truediv_run (a b : Z) (t : trace) :
  (exists e, py_truediv a b t = (inl e, t) /\
             (e = ZeroDivisionError \/ e = OverflowError)) \/
  (exists w, py_truediv a b t = (inr w, t)).
Proof.
  unfold py_truediv. destruct (Z.eqb b 0).
  - left. exists ZeroDivisionError. split; [reflexivity | left; reflexivity].
  - destruct (Float.int_truediv a b);
      try (right; eexists; reflexivity).
    left. exists OverflowError. split; [reflexivity | right; reflexivity].
Qed.

(** Either [get_group] raises before hashing anything, and the exception
    is not [IndexError]; or it hashes the one message of the identifier
    and returns what the loop returns for its bucket. *)
Lemma get_group_cases self user_id groups weights (t : trace) :
  (exists e, get_group self user_id groups weights t = (inl e, t) /\
             e <> IndexError) \/
  (exists ws,
     get_group self user_id groups weights t =
     (pick (bucket_of self user_id) (effective_groups groups) ws,
      (t ++ [encode (combined self user_id)])%list)).
Proof.
  destruct weights as [ws|].
  - rewrite get_group_run. destruct (np_isclose (py_sum ws) Float.one).
    + right. exists ws. reflexivity.
    + left. exists ValueError. split; [reflexivity | discriminate].
  - unfold get_group. fold (effective_groups groups). unfold bind, ret.
    destruct (py_truediv_run 1 (Z.of_nat (List.length (effective_groups groups))) t)
      as [(e & -> & He)|(w & ->)].
    + left. exists e. split; [reflexivity|]. destruct He; subst e; discriminate.
    + destruct (np_isclose _ Float.one); cbn [negb].
      * right. eexists. rewrite hash_to_float_run. reflexivity.
      * left. exists ValueError. split; [reflexivity | discriminate].
Qed.

(** X1.  [_hash_to_float] never raises and returns a float that is not
    negative.  The float is [1.0] exactly when the digest prefix is at
    least [2 ^ 64 - 1024], and strictly below [1.0] exactly when the prefix
    is smaller than that. *)
Theorem hash_to_float_one_iff (self : ABSplitter) (v : value) (t : trace) :
  exists f,
    result (_hash_to_float self v) t = inr f /\
    nonneg f /\
    (f = Float.one <-> 2 ^ 64 - 1024 <= digest_prefix self v) /\
    (Float.ltb f Float.one = true <-> digest_prefix self v < 2 ^ 64 - 1024).
Proof.
  pose proof (digest_prefix_bound self v) as Hn.
  exists (Float.int_truediv (digest_prefix self v) (2 ^ 64)).
  unfold result. rewrite hash_to_float_run. split; [reflexivity|].
  split; [apply bucket_nonneg; exact Hn|].
  pose proof (bucket_lt_one _ Hn) as Hlt.
  split; [|exact Hlt]. split.
  - intros E. destruct (Z_lt_ge_dec (digest_prefix self v) (2 ^ 64 - 1024)) as [Hs|Hs]; [|lia].
    apply Hlt in Hs. rewrite E in Hs. vm_compute in Hs. discriminate Hs.
  - intros Hge. apply bucket_top. lia.
Qed.

(** X2.  With [groups] and [weights] omitted, [get_group] never raises,
    hashes the identifier once, and returns ["control"] exactly when the
    digest prefix is below [2 ^ 63 - 512], ["test"] otherwise: the
    prefixes from [2 ^ 63 - 512] to [2 ^ 63 - 1] round up to the bucket
    [0.5]. *)
Theorem get_group_default_split (self : ABSplitter) (user_id : value) (t : trace) :
  get_group self user_id None None t =
  (inr (if Z.ltb (digest_prefix self user_id) (2 ^ 63 - 512)
        then "control" else "test"),
   (t ++ [encode (combined self user_id)])%list).
Proof.
  assert (E : get_group self user_id None None t =
              get_group self user_id None (Some [half; half]) t) by reflexivity.
  rewrite E, get_group_run.
  replace (np_isclose (py_sum [half; half]) Float.one) with true
    by (vm_compute; reflexivity).
  cbn [effective_groups]. rewrite pick_two.
  change (num_ltb (bucket_of self user_id) (num_add num_zero half))
    with (Float.ltb (bucket_of self user_id) (Float.add Float.zero half)).
  replace (Float.add Float.zero half) with half by (vm_compute; reflexivity).
  unfold bucket_of.
  destruct (Z.ltb_spec (digest_prefix self user_id) (2 ^ 63 - 512)) as [Hlt|Hge].
  - rewrite (proj2 (bucket_lt_half _ (digest_prefix_bound self user_id)) Hlt).
    reflexivity.
  - destruct (Float.ltb _ half) eqn:El; [|reflexivity].
    apply (bucket_lt_half _ (digest_prefix_bound self user_id)) in El. lia.
Qed.

(** X3.  Whatever the arguments, defaults included, a name that
    [get_group] returns is one of the names in [groups] (of
    [["control", "test"]] when [groups] is omitted). *)
Theorem get_group_in_groups self user_id groups weights (t : trace) (g : string) :
  result (get_group self user_id groups weights) t = inr g ->
  In g (effective_groups groups).
Proof.
  unfold result.
  destruct (get_group_cases self user_id groups weights t)
    as [(e & -> & _)|(ws & ->)]; cbn [fst]; [discriminate|].
  apply pick_in.
Qed.

(** X4.  Every call of [get_group] either raises before hashing anything,
    with an exception other than [IndexError], or hashes exactly one
    message, [salt + "_" + str(user_id)], and then returns a name, or
    raises [IndexError] when there is no group at all. *)
Theorem get_group_hashes_once self user_id groups weights (t : trace) :
  (snd (get_group self user_id groups weights t) = t /\
   exists e, result (get_group self user_id groups weights) t = inl e /\
             e <> IndexError) \/
  (snd (get_group self user_id groups weights t)
     = (t ++ [encode (combined self user_id)])%list /\
   ((exists g, result (get_group self user_id groups weights) t = inr g) \/
    (result (get_group self user_id groups weights) t = inl IndexError /\
     effective_groups groups = []))).
Proof.
  unfold result.
  destruct (get_group_cases self user_id groups weights t)
    as [(e & -> & He)|(ws & ->)]; cbn [fst snd].
  - left. split; [reflexivity|]. exists e. split; [reflexivity | exact He].
  - right. split; [reflexivity|].
    destruct (effective_groups groups) as [|g0 rest] eqn:Eg.
    + right. split; reflexivity.
    + left. destruct (pick_total (bucket_of self user_id) (g0 :: rest) ws
                        ltac:(discriminate)) as (g & Hg & _).
      exists g. exact Hg.
Qed.

(** X5.  With an empty list of groups, omitted weights raise
    [ZeroDivisionError] before anything is hashed, and weights that pass
    the validation raise [IndexError] after the identifier was hashed. *)
Theorem get_group_empty_groups self user_id (t : trace) :
  get_group self user_id (Some []) None t = (inl ZeroDivisionError, t) /\
  (forall ws, np_isclose (py_sum ws) Float.one = true ->
     get_group self user_id (Some []) (Some ws) t =
     (inl IndexError, (t ++ [encode (combined self user_id)])%list)).
Proof.
  split; [reflexivity|].
  intros ws Hc. rewrite get_group_run, Hc. reflexivity.
Qed.

(** X6.  With one group and omitted weights, [get_group] returns that
    group for every salt and identifier. *)
Theorem get_group_single_group self user_id (g : string) (t : trace) :
  get_group self user_id (Some [g]) None t =
  (inr g, (t ++ [encode (combined self user_id)])%list).
Proof.
  assert (E : get_group self user_id (Some [g]) None t =
              get_group self user_id (Some [g]) (Some [Float.one]) t) by reflexivity.
  rewrite E, get_group_run.
  replace (np_isclose (py_sum [Float.one]) Float.one) with true
    by (vm_compute; reflexivity).
  cbn [effective_groups]. rewrite pick_one. reflexivity.
Qed.

(** Adding a zero weight leaves the comparison with the bucket as it was. *)
Lemma ltb_add_zero (s x : Float.float) (sgn : bool) :
  nonneg x ->
  Float.ltb s (Float.add x (S754_zero sgn)) = Float.ltb s x.
Proof.
  intros Hx. apply nonneg_cases in Hx.
  destruct x as [sx|[]| |[] mx ex]; try contradiction; try reflexivity.
  destruct s as [ss|ss| |ss ms es], sx, sgn; reflexivity.
Qed.

Lemma nonneg_not_positive_zero (w : Float.float) :
  nonneg w -> Float.ltb Float.zero w = false -> exists sgn, w = S754_zero sgn.
Proof.
  intros Hw Hz. apply nonneg_cases in Hw.
  destruct w as [sw|[]| |[] mw ew]; try contradiction.
  - exists sw. reflexivity.
  - discriminate Hz.
  - discriminate Hz.
Qed.

(** The loop on non-negative weights whose last boundary is [1.0]: the
    first boundary above the sample closes the interval that holds it. *)
Lemma pick_first_boundary (groups : list string) (ws : list Float.float)
    (sample : Float.float) :
  List.length groups = List.length ws ->
  Forall nonneg ws ->
  Float.eqb (bound ws (List.length ws)) Float.one = true ->
  Float.leb Float.zero sample = true ->
  Float.ltb sample Float.one = true ->
  exists i g,
    nth_error groups i = Some g /\
    pick sample groups ws = inr g /\
    Float.leb (bound ws i) sample = true /\
    Float.ltb sample (bound ws (S i)) = true.
Proof.
  intros Hlen Hnn Hsum Hlo Hhi.
  apply eqb_one in Hsum. unfold pick.
  destruct (scan sample num_zero (combine groups ws)) as [g|] eqn:Hs.
  - destruct (scan_some _ _ _ _ Hs) as (i & w & Hn & Hlt & Hfirst).
    rewrite (map_snd_combine _ _ Hlen) in Hlt, Hfirst.
    destruct (nth_error_combine_fst _ _ _ _ _ Hn) as [Hg Hw].
    exists i, g. split; [exact Hg|]. split; [reflexivity|].
    split; [|exact Hlt].
    destruct i as [|i]; [exact Hlo|].
    apply ltb_false_leb;
      [apply (leb_not_nan_r _ _ Hlo)
      |apply nonneg_not_nan, bound_nonneg, Hnn
      |apply Hfirst; lia].
  - exfalso.
    pose proof (proj1 (scan_none _ _ _) Hs (List.length ws - 1)%nat) as Hall.
    rewrite (map_snd_combine _ _ Hlen), length_combine, Hlen, Nat.min_id in Hall.
    assert (Hpos : (0 < List.length ws)%nat).
    { destruct ws; [|simpl; lia]. vm_compute in Hsum. discriminate Hsum. }
    specialize (Hall ltac:(lia)).
    replace (S (List.length ws - 1)) with (List.length ws) in Hall by lia.
    change (cum num_zero ws (List.length ws)) with (bound ws (List.length ws)) in Hall.
    rewrite Hsum in Hall.
    change (num_ltb sample Float.one) with (Float.ltb sample Float.one) in Hall.
    congruence.
Qed.

(** X7.  On floats as on rationals: with names and weights of equal
    length, non-negative weights whose last cumulative boundary is exactly
    [1.0] and a sample in [[0, 1)], the loop returns the name at an index
    whose weight is strictly positive. *)
Theorem pick_skips_zero_weight (groups : list string) (ws : list Float.float)
    (sample : Float.float) :
  List.length groups = List.length ws ->
  Forall nonneg ws ->
  Float.eqb (bound ws (List.length ws)) Float.one = true ->
  Float.leb Float.zero sample = true ->
  Float.ltb sample Float.one = true ->
  exists i g w,
    pick sample groups ws = inr g /\
    nth_error groups i = Some g /\
    nth_error ws i = Some w /\
    Float.ltb Float.zero w = true.
Proof.
  intros Hlen Hnn Hsum Hlo Hhi.
  destruct (pick_first_boundary groups ws sample Hlen Hnn Hsum Hlo Hhi)
    as (i & g & Hg & Hp & Hle & Hlt).
  assert (Hi : (i < List.length ws)%nat).
  { rewrite <- Hlen. apply nth_error_Some. congruence. }
  destruct (nth_error ws i) as [w|] eqn:Hw; [|apply nth_error_None in Hw; lia].
  exists i, g, w. repeat split; try assumption.
  destruct (Float.ltb Float.zero w) eqn:Hz; [reflexivity|exfalso].
  assert (Hwn : nonneg w).
  { apply nth_error_In in Hw. exact (proj1 (Forall_forall _ _) Hnn w Hw). }
  destruct (nonneg_not_positive_zero w Hwn Hz) as (sgn & ->).
  unfold bound in Hlt. rewrite (cum_step _ _ _ _ Hw) in Hlt.
  change (num_add (cum num_zero ws i) (S754_zero sgn))
    with (Float.add (bound ws i) (S754_zero sgn)) in Hlt.
  rewrite ltb_add_zero in Hlt by (apply bound_nonneg; exact Hnn).
  apply leb_true_ltb_false in Hle. congruence.
Qed.

(** ** Frames *)

Lemma df_getitem_setitem_same (df : DataFrame) (col : string) (s : Series) :
  df_getitem (df_setitem df col s) col = Some s.
Proof.
  induction df as [|[c x] rest IH]; cbn [df_setitem df_getitem].
  - rewrite String.eqb_refl. reflexivity.
  - destruct (String.eqb c col) eqn:E; cbn [df_getitem]; rewrite E;
      [reflexivity | exact IH].
Qed.

Lemma df_getitem_setitem_other (df : DataFrame) (col c' : string) (s : Series) :
  c' <> col -> df_getitem (df_setitem df col s) c' = df_getitem df c'.
Proof.
  intros Hne. induction df as [|[c x] rest IH]; cbn [df_setitem df_getitem].
  - destruct (String.eqb_spec col c'); [congruence | reflexivity].
  - destruct (String.eqb_spec c col) as [->|Hc]; cbn [df_getitem].
    + destruct (String.eqb_spec col c'); [congruence | reflexivity].
    + destruct (String.eqb c c'); [reflexivity | exact IH].
Qed.

Lemma labels_setitem (df : DataFrame) (col : string) (s : Series) :
  labels (df_setitem df col s) =
  match df_getitem df col with
  | Some _ => labels df
  | None => (labels df ++ [col])%list
  end.
Proof.
  unfold labels. induction df as [|[c x] rest IH]; cbn [df_setitem df_getitem map fst];
    [reflexivity|].
  destruct (String.eqb c col); cbn [map fst]; [reflexivity|].
  rewrite IH. destruct (df_getitem rest col); reflexivity.
Qed.

(** ** [Series.apply] *)

Lemma series_apply_length {A} (func : value -> M A) (ids : Series) :
  forall t gs t', series_apply func ids t = (inr gs, t') ->
                  List.length gs = List.length ids.
Proof.
  induction ids as [|x rest IH]; intros t gs t' Hr; cbn [series_apply] in Hr.
  - inversion Hr. reflexivity.
  - unfold bind at 1 in Hr. destruct (func x t) as [[e|y] t1]; [discriminate|].
    unfold bind in Hr.
    destruct (series_apply func rest t1) as [[e|ys] t2] eqn:Es; [discriminate|].
    inversion Hr; subst. cbn [List.length]. f_equal. exact (IH _ _ _ Es).
Qed.

Lemma series_apply_map {A} (func : value -> M A) (h : value -> A)
    (msg : value -> list byte) (ids : Series) :
  Forall (fun x => forall t, func x t = (inr (h x), (t ++ [msg x])%list)) ids ->
  forall t, series_apply func ids t = (inr (map h ids), (t ++ map msg ids)%list).
Proof.
  induction 1 as [|x rest Hx Hrest IH]; intros t; cbn [series_apply map].
  - unfold ret. rewrite app_nil_r. reflexivity.
  - unfold bind at 1. rewrite Hx. unfold bind. rewrite IH. unfold ret.
    rewrite <- app_assoc. reflexivity.
Qed.

Lemma series_apply_first_error {A} (func : value -> M A) (x : value)
    (rest : Series) (e : exn) (t t' : trace) :
  func x t = (inl e, t') -> series_apply func (x :: rest) t = (inl e, t').
Proof. intros H. cbn [series_apply]. unfold bind at 1. rewrite H. reflexivity. Qed.

(** A call of [get_group] that succeeds from the empty trace succeeds from
    every trace, with the same group, and hashes the identifier. *)
Lemma get_group_success_run self user_id groups weights (g : string) :
  result (get_group self user_id groups weights) [] = inr g ->
  forall t, get_group self user_id groups weights t =
            (inr g, (t ++ [encode (combined self user_id)])%list).
Proof.
  intros H0 t.
  assert (Ht : result (get_group self user_id groups weights) t = inr g).
  { rewrite <- H0. apply stateless_get_group. }
  unfold result in Ht.
  destruct (get_group_cases self user_id groups weights t)
    as [(e & E & _)|(ws & E)]; rewrite E in Ht |- *; cbn [fst] in Ht.
  - discriminate.
  - rewrite Ht. reflexivity.
Qed.

Lemma series_apply_get_group self groups weights (ids : Series) :
  Forall (fun uid => exists g,
            result (get_group self uid groups weights) [] = inr g) ids ->
  forall t, exists gs,
    series_apply (fun uid => get_group self uid groups weights) ids t =
      (inr gs, (t ++ hashed self ids)%list) /\
    Forall2 (fun uid g => forall t0,
               result (get_group self uid groups weights) t0 = inr g) ids gs.
Proof.
  unfold hashed.
  induction 1 as [|uid rest (g & Hg) Hrest IH]; intros t.
  - exists []. cbn [series_apply map]. unfold ret. rewrite app_nil_r.
    split; [reflexivity | constructor].
  - destruct (IH (t ++ [encode (combined self uid)])%list) as (gs & Hrun & Hall).
    exists (g :: gs). split.
    + cbn [series_apply map]. unfold bind at 1.
      rewrite (get_group_success_run _ _ _ _ _ Hg). unfold bind.
      rewrite Hrun. unfold ret. rewrite <- app_assoc. reflexivity.
    + constructor; [|exact Hall].
      intros t0. unfold result. rewrite (get_group_success_run _ _ _ _ _ Hg).
      reflexivity.
Qed.

(** X8.  When the identifier column exists and [get_group] succeeds on
    each of its cells, [assign_groups] returns the frame with a ["group"]
    column that holds, row by row and in order, the group [get_group]
    returns for that row's identifier, and it hashes one message per row,
    first row first. *)
Theorem assign_groups_rows self (df : DataFrame) (user_col : string)
    groups weights (ids : Series) (t : trace) :
  df_getitem df user_col = Some ids ->
  Forall (fun uid => exists g,
            result (get_group self uid groups weights) [] = inr g) ids ->
  exists gs,
    assign_groups self df user_col groups weights t =
      (inr (df_setitem df "group" (map PyStr gs)), (t ++ hashed self ids)%list) /\
    Forall2 (fun uid g => forall t0,
               result (get_group self uid groups weights) t0 = inr g) ids gs.
Proof.
  intros Hcol Hok. unfold assign_groups. rewrite Hcol.
  destruct (series_apply_get_group self groups weights ids Hok t) as (gs & -> & Hall).
  exists gs. split; [reflexivity | exact Hall].
Qed.

(** X9.  A frame returned by [assign_groups] has a ["group"] column as
    long as the identifier column, every other column as it was, and its
    columns in the order they had, with ["group"] added last when it was
    not there. *)
Theorem assign_groups_frame self (df df' : DataFrame) (user_col : string)
    groups weights (t t' : trace) :
  assign_groups self df user_col groups weights t = (inr df', t') ->
  (exists ids gs,
     df_getitem df user_col = Some ids /\
     df_getitem df' "group" = Some gs /\
     List.length gs = List.length ids) /\
  (forall c, c <> "group" -> df_getitem df' c = df_getitem df c) /\
  labels df' = match df_getitem df "group" with
               | Some _ => labels df
               | None => (labels df ++ ["group"])%list
               end.
Proof.
  unfold assign_groups. destruct (df_getitem df user_col) as [ids|]; [|discriminate].
  destruct (series_apply _ ids t) as [[e|gs] t1] eqn:Es; [discriminate|].
  intros Hr. inversion Hr; subst df' t'. split; [|split].
  - exists ids, (map PyStr gs). split; [reflexivity|].
    split; [apply df_getitem_setitem_same|].
    rewrite length_map. exact (series_apply_length _ _ _ _ _ Es).
  - intros c Hc. apply df_getitem_setitem_other. exact Hc.
  - apply labels_setitem.
Qed.

(** X10.  A missing identifier column raises [KeyError] before anything
    else is looked at.  Weights whose sum is not close to [1.0] raise
    [ValueError] at the first row, with nothing hashed; on a frame without
    rows they raise nothing, and the frame comes back with an empty
    ["group"] column. *)
Theorem assign_groups_errors self (df : DataFrame) (user_col : string)
    groups (ws : list Float.float) (t : trace) :
  (df_getitem df user_col = None ->
   forall weights,
     assign_groups self df user_col groups weights t = (inl (KeyError user_col), t)) /\
  (np_isclose (py_sum ws) Float.one = false ->
   (forall uid rest, df_getitem df user_col = Some (uid :: rest) ->
      assign_groups self df user_col groups (Some ws) t = (inl (Raised ValueError), t)) /\
   (df_getitem df user_col = Some [] ->
      assign_groups self df user_col groups (Some ws) t
      = (inr (df_setitem df "group" []), t))).
Proof.
  split; [|intros Hbad; split].
  - intros Hcol weights. unfold assign_groups. rewrite Hcol. reflexivity.
  - intros uid rest Hcol. unfold assign_groups. rewrite Hcol.
    rewrite (series_apply_first_error _ uid rest ValueError t t
               (get_group_rejected self uid groups ws t Hbad)).
    reflexivity.
  - intros Hcol. unfold assign_groups. rewrite Hcol. reflexivity.
Qed.

(** ** [quick_split] *)

(** [assign_groups] when every row's call returns [h] of its identifier. *)
Lemma assign_groups_with self (df : DataFrame) (user_col : string) groups weights
    (ids : Series) (h : value -> string) (t : trace) :
  df_getitem df user_col = Some ids ->
  (forall uid t0,
     get_group self uid groups weights t0 =
     (inr (h uid), (t0 ++ [encode (combined self uid)])%list)) ->
  assign_groups self df user_col groups weights t =
  (inr (df_setitem df "group" (map (fun uid => PyStr (h uid)) ids)),
   (t ++ hashed self ids)%list).
Proof.
  intros Hcol Hrow. unfold assign_groups, hashed. rewrite Hcol.
  rewrite (series_apply_map _ h (fun uid => encode (combined self uid))).
  - rewrite map_map. reflexivity.
  - apply Forall_forall. intros uid _ t0. apply Hrow.
Qed.

(** One row of [quick_split]: the first boundary decides. *)
Lemma quick_split_row (salt : string) (p : Float.float) (uid : value) (t : trace) :
  np_isclose (py_sum [Float.sub Float.one p; p]) Float.one = true ->
  get_group (__init__ (Some salt)) uid (Some ["control"; "test"])
            (Some [Float.sub Float.one p; p]) t =
  (inr (if Float.ltb (bucket_of (__init__ (Some salt)) uid)
                     (Float.add Float.zero (Float.sub Float.one p))
        then "control" else "test"),
   (t ++ [encode (combined (__init__ (Some salt)) uid)])%list).
Proof.
  intros Hc. rewrite get_group_run, Hc. cbn [effective_groups].
  rewrite pick_two. reflexivity.
Qed.

(** A test on the bucket restated on the digest prefix. *)
Lemma bucket_test_prefix (n bound : Z) (f : Float.float) (a b : string) :
  (Float.ltb (Float.int_truediv n (2 ^ 64)) f = true <-> n < bound) ->
  (if Float.ltb (Float.int_truediv n (2 ^ 64)) f then a else b) =
  (if Z.ltb n bound then a else b).
Proof.
  intros H. destruct (Z.ltb_spec n bound) as [Hlt|Hge].
  - rewrite (proj2 H Hlt). reflexivity.
  - case_eq (Float.ltb (Float.int_truediv n (2 ^ 64)) f); intros El; [|reflexivity].
    apply H in El. lia.
Qed.

(** X11.  When the weights [[1 - test_pct, test_pct]] pass the validation
    and the identifier column exists, [quick_split] puts a row in
    ["control"] exactly when its bucket is below [0.0 + (1 - test_pct)],
    in ["test"] otherwise, and hashes one message per row. *)
Theorem quick_split_threshold (df : DataFrame) (user_col salt : string)
    (p : Float.float) (ids : Series) (t : trace) :
  np_isclose (py_sum [Float.sub Float.one p; p]) Float.one = true ->
  df_getitem df user_col = Some ids ->
  quick_split df user_col salt (Some p) t =
  (inr (df_setitem df "group"
          (map (fun uid =>
                  PyStr (if Float.ltb (bucket_of (__init__ (Some salt)) uid)
                                      (Float.add Float.zero (Float.sub Float.one p))
                         then "control" else "test")) ids)),
   (t ++ hashed (__init__ (Some salt)) ids)%list).
Proof.
  intros Hc Hcol. unfold quick_split.
  apply (assign_groups_with _ _ _ _ _ _
           (fun uid => if Float.ltb (bucket_of (__init__ (Some salt)) uid)
                                    (Float.add Float.zero (Float.sub Float.one p))
                       then "control" else "test") _ Hcol).
  intros uid t0. apply quick_split_row. exact Hc.
Qed.

(** X12.  [quick_split] with the default [test_pct] is [assign_groups]
    with the default groups and weights on a splitter of the same salt;
    a row is in ["control"] exactly when its digest prefix is below
    [2 ^ 63 - 512]. *)
Theorem quick_split_default (df : DataFrame) (user_col salt : string)
    (ids : Series) (t : trace) :
  df_getitem df user_col = Some ids ->
  quick_split df user_col salt None t =
    assign_groups (__init__ (Some salt)) df user_col None None t /\
  quick_split df user_col salt None t =
  (inr (df_setitem df "group"
          (map (fun uid =>
                  PyStr (if Z.ltb (digest_prefix (__init__ (Some salt)) uid)
                                  (2 ^ 63 - 512)
                         then "control" else "test")) ids)),
   (t ++ hashed (__init__ (Some salt)) ids)%list).
Proof.
  intros Hcol.
  assert (Hrow : forall uid t0,
            get_group (__init__ (Some salt)) uid (Some ["control"; "test"])
                      (Some [Float.sub Float.one half; half]) t0 =
            (inr (if Z.ltb (digest_prefix (__init__ (Some salt)) uid) (2 ^ 63 - 512)
                  then "control" else "test"),
             (t0 ++ [encode (combined (__init__ (Some salt)) uid)])%list)).
  { intros uid t0.
    rewrite quick_split_row by (vm_compute; reflexivity).
    replace (Float.add Float.zero (Float.sub Float.one half)) with half
      by (vm_compute; reflexivity).
    unfold bucket_of. f_equal. f_equal.
    apply bucket_test_prefix, bucket_lt_half, digest_prefix_bound. }
  assert (Hq : quick_split df user_col salt None t =
               (inr (df_setitem df "group"
                      (map (fun uid =>
                         PyStr (if Z.ltb (digest_prefix (__init__ (Some salt)) uid)
                                         (2 ^ 63 - 512)
                                then "control" else "test")) ids)),
                (t ++ hashed (__init__ (Some salt)) ids)%list)).
  { unfold quick_split. apply (assign_groups_with _ _ _ _ _ _ _ _ Hcol Hrow). }
  split; [|exact Hq].
  rewrite Hq. symmetry.
  apply (assign_groups_with _ _ _ _ _ _ _ _ Hcol).
  intros uid t0. rewrite <- Hrow. reflexivity.
Qed.

(** With [1 - test_pct] at or below zero no bucket is below the first
    boundary. *)
Lemma ltb_add_zero_nonpositive (b x : Float.float) :
  nonneg b -> Float.leb x Float.zero = true ->
  Float.ltb b (Float.add Float.zero x) = false.
Proof.
  intros Hb Hx. apply nonneg_cases in Hb.
  destruct x as [sx|[]| |[] mx ex]; try discriminate Hx;
    destruct b as [sb|[]| |[] mb eb]; try contradiction;
    try destruct sx; try destruct sb; reflexivity.
Qed.

(** X13.  [quick_split] does not check that [test_pct] is a proportion:
    when the weights [[1 - test_pct, test_pct]] pass the validation and
    [1 - test_pct] is zero or negative, every row is in ["test"]. *)
Theorem quick_split_all_test (df : DataFrame) (user_col salt : string)
    (p : Float.float) (ids : Series) (t : trace) :
  np_isclose (py_sum [Float.sub Float.one p; p]) Float.one = true ->
  Float.leb (Float.sub Float.one p) Float.zero = true ->
  df_getitem df user_col = Some ids ->
  quick_split df user_col salt (Some p) t =
  (inr (df_setitem df "group" (map (fun _ => PyStr "test") ids)),
   (t ++ hashed (__init__ (Some salt)) ids)%list).
Proof.
  intros Hc Hneg Hcol. unfold quick_split.
  apply (assign_groups_with _ _ _ _ _ _ (fun _ => "test") _ Hcol).
  intros uid t0. rewrite (quick_split_row _ _ _ _ Hc).
  rewrite ltb_add_zero_nonpositive; [reflexivity| |exact Hneg].
  apply bucket_nonneg, digest_prefix_bound.
Qed.

(** X14.  [quick_split] with [test_pct = 0.0] puts a row in ["control"]
    exactly when its digest prefix is below [2 ^ 64 - 1024]; the rows whose
    bucket is [1.0] are in ["test"]. *)
Theorem quick_split_no_test (df : DataFrame) (user_col salt : string)
    (ids : Series) (t : trace) :
  df_getitem df user_col = Some ids ->
  quick_split df user_col salt (Some Float.zero) t =
  (inr (df_setitem df "group"
          (map (fun uid =>
                  PyStr (if Z.ltb (digest_prefix (__init__ (Some salt)) uid)
                                  (2 ^ 64 - 1024)
                         then "control" else "test")) ids)),
   (t ++ hashed (__init__ (Some salt)) ids)%list).
Proof.
  intros Hcol. unfold quick_split.
  apply (assign_groups_with _ _ _ _ _ _
           (fun uid => if Z.ltb (digest_prefix (__init__ (Some salt)) uid)
                                (2 ^ 64 - 1024)
                       then "control" else "test") _ Hcol).
  intros uid t0.
  rewrite quick_split_row by (vm_compute; reflexivity).
  replace (Float.add Float.zero (Float.sub Float.one Float.zero)) with Float.one
    by (vm_compute; reflexivity).
  unfold bucket_of. f_equal. f_equal.
  apply bucket_test_prefix, bucket_lt_one, digest_prefix_bound.
Qed.

(** ** The properties on small frames *)

Lemma get_group_in_groups_witness :
  In "control" (effective_groups None).
Proof.
  apply (get_group_in_groups {| salt := "exp1" |} (PyInt 1) None None [] "control").
  vm_compute. reflexivity.
Defined.

Lemma get_group_empty_groups_witness :
  np_isclose (py_sum [half; half]) Float.one = true /\
  get_group {| salt := "exp1" |} (PyInt 1) (Some []) (Some [half; half]) [] =
  (inl IndexError, [encode "exp1_1"]).
Proof.
  assert (Hc : np_isclose (py_sum [half; half]) Float.one = true)
    by (vm_compute; reflexivity).
  split; [exact Hc|].
  exact (proj2 (get_group_empty_groups {| salt := "exp1" |} (PyInt 1) [])
               [half; half] Hc).
Defined.

Lemma pick_skips_zero_weight_witness :
  exists i g w,
    pick half ["a"; "b"; "c"] [half; Float.zero; half] = inr g /\
    nth_error ["a"; "b"; "c"] i = Some g /\
    nth_error [half; Float.zero; half] i = Some w /\
    Float.ltb Float.zero w = true.
Proof.
  apply (pick_skips_zero_weight ["a"; "b"; "c"] [half; Float.zero; half] half).
  - reflexivity.
  - repeat constructor.
  - vm_compute. reflexivity.
  - vm_compute. reflexivity.
  - vm_compute. reflexivity.
Defined.

Lemma assign_groups_rows_witness :
  exists gs,
    assign_groups {| salt := "exp1" |}
      [("user_id", [PyInt 1; PyInt 2; PyInt 4])] "user_id" None None [] =
      (inr (df_setitem [("user_id", [PyInt 1; PyInt 2; PyInt 4])] "group"
              (map PyStr gs)),
       ([] ++ hashed {| salt := "exp1" |} [PyInt 1; PyInt 2; PyInt 4])%list) /\
    Forall2 (fun uid g => forall t0,
               result (get_group {| salt := "exp1" |} uid None None) t0 = inr g)
            [PyInt 1; PyInt 2; PyInt 4] gs.
Proof.
  apply (assign_groups_rows {| salt := "exp1" |}
           [("user_id", [PyInt 1; PyInt 2; PyInt 4])] "user_id" None None
           [PyInt 1; PyInt 2; PyInt 4] []).
  - reflexivity.
  - repeat constructor; eexists; vm_compute; reflexivity.
Defined.

Lemma assign_groups_frame_witness :
  (exists ids gs,
     df_getitem [("user_id", [PyInt 1; PyInt 4])] "user_id" = Some ids /\
     df_getitem [("user_id", [PyInt 1; PyInt 4]);
                 ("group", [PyStr "control"; PyStr "test"])] "group" = Some gs /\
     List.length gs = List.length ids) /\
  (forall c, c <> "group" ->
     df_getitem [("user_id", [PyInt 1; PyInt 4]);
                 ("group", [PyStr "control"; PyStr "test"])] c
     = df_getitem [("user_id", [PyInt 1; PyInt 4])] c) /\
  labels [("user_id", [PyInt 1; PyInt 4]);
          ("group", [PyStr "control"; PyStr "test"])]
  = match df_getitem [("user_id", [PyInt 1; PyInt 4])] "group" with
    | Some _ => labels [("user_id", [PyInt 1; PyInt 4])]
    | None => (labels [("user_id", [PyInt 1; PyInt 4])] ++ ["group"])%list
    end.
Proof.
  apply (assign_groups_frame {| salt := "exp1" |}
           [("user_id", [PyInt 1; PyInt 4])]
           [("user_id", [PyInt 1; PyInt 4]);
            ("group", [PyStr "control"; PyStr "test"])]
           "user_id" None None [] [encode "exp1_1"; encode "exp1_4"]).
  vm_compute. reflexivity.
Defined.

Lemma assign_groups_errors_witness :
  np_isclose (py_sum [Float.lit 3 10; Float.lit 3 10]) Float.one = false /\
  assign_groups {| salt := "exp1" |} [("user_id", [PyInt 1; PyInt 2])] "user_id"
    None (Some [Float.lit 3 10; Float.lit 3 10]) [] = (inl (Raised ValueError), []) /\
  assign_groups {| salt := "exp1" |} [("user_id", [])] "user_id"
    None (Some [Float.lit 3 10; Float.lit 3 10]) []
    = (inr [("user_id", []); ("group", [])], []).
Proof.
  assert (Hbad : np_isclose (py_sum [Float.lit 3 10; Float.lit 3 10]) Float.one = false)
    by (vm_compute; reflexivity).
  split; [exact Hbad|]. split.
  - exact (proj1 (proj2 (assign_groups_errors {| salt := "exp1" |}
                           [("user_id", [PyInt 1; PyInt 2])] "user_id" None
                           [Float.lit 3 10; Float.lit 3 10] []) Hbad)
                 (PyInt 1) [PyInt 2] eq_refl).
  - exact (proj2 (proj2 (assign_groups_errors {| salt := "exp1" |}
                           [("user_id", [])] "user_id" None
                           [Float.lit 3 10; Float.lit 3 10] []) Hbad) eq_refl).
Defined.

Lemma quick_split_threshold_witness :
  quick_split [("user_id", [PyInt 1; PyInt 4; PyInt 5])] "user_id" "exp1"
              (Some (Float.lit 3 10)) [] =
  (inr [("user_id", [PyInt 1; PyInt 4; PyInt 5]);
        ("group", [PyStr "control"; PyStr "control"; PyStr "test"])],
   [encode "exp1_1"; encode "exp1_4"; encode "exp1_5"]).
Proof.
  rewrite (quick_split_threshold [("user_id", [PyInt 1; PyInt 4; PyInt 5])]
             "user_id" "exp1" (Float.lit 3 10) [PyInt 1; PyInt 4; PyInt 5] []).
  - vm_compute. reflexivity.
  - vm_compute. reflexivity.
  - reflexivity.
Defined.

Lemma quick_split_default_witness :
  quick_split [("user_id", [PyInt 1; PyInt 4])] "user_id" "exp1" None [] =
  assign_groups (__init__ (Some "exp1")) [("user_id", [PyInt 1; PyInt 4])]
                "user_id" None None [].
Proof.
  exact (proj1 (quick_split_default [("user_id", [PyInt 1; PyInt 4])] "user_id"
                  "exp1" [PyInt 1; PyInt 4] [] eq_refl)).
Defined.

Lemma quick_split_all_test_witness :
  quick_split [("user_id", [PyInt 1; PyInt 2; PyInt 4])] "user_id" "exp1"
              (Some (Float.lit 3 2)) [] =
  (inr (df_setitem [("user_id", [PyInt 1; PyInt 2; PyInt 4])] "group"
          (map (fun _ => PyStr "test") [PyInt 1; PyInt 2; PyInt 4])),
   ([] ++ hashed (__init__ (Some "exp1")) [PyInt 1; PyInt 2; PyInt 4])%list).
Proof.
  apply (quick_split_all_test [("user_id", [PyInt 1; PyInt 2; PyInt 4])]
           "user_id" "exp1" (Float.lit 3 2) [PyInt 1; PyInt 2; PyInt 4] []).
  - vm_compute. reflexivity.
  - vm_compute. reflexivity.
  - reflexivity.
Defined.

Lemma quick_split_no_test_witness :
  quick_split [("user_id", [PyInt 1; PyInt 4])] "user_id" "exp1"
              (Some Float.zero) [] =
  (inr (df_setitem [("user_id", [PyInt 1; PyInt 4])] "group"
          (map (fun uid =>
                  PyStr (if Z.ltb (digest_prefix (__init__ (Some "exp1")) uid)
                                  (2 ^ 64 - 1024)
                         then "control" else "test")) [PyInt 1; PyInt 4])),
   ([] ++ hashed (__init__ (Some "exp1")) [PyInt 1; PyInt 4])%list).
Proof.
  exact (quick_split_no_test [("user_id", [PyInt 1; PyInt 4])] "user_id" "exp1"
           [PyInt 1; PyInt 4] [] eq_refl).
Defined.
